(** * PDF Interleave: a shallow embedding of [src/App.tsx]

    The React component [App] keeps eight pieces of state and mutates them
    from three asynchronous handlers.  The embedding below follows the source
    function by function:

    - [formatBytes] is a pure function on JavaScript numbers.  The byte counts
      the component ever passes to it are file and blob sizes, so they are
      modelled as [N]; the running [value] is an exact rational, because a
      division of a double by 1024 is exact and [Number.prototype.toFixed]
      is specified on the exact mathematical value of its receiver.
    - the handlers are split where the source awaits: the code before the
      first [await] runs inside the DOM event, the code after the last one
      runs when the promise settles, on whatever the state is by then.
    - pdf-lib and the browser ([FileReader], [URL.createObjectURL]) are
      collaborators of the component; they are taken as a record of
      functions whose failure (a thrown exception, a rejected promise) is
      [None]. *)

From Stdlib Require Import String Ascii QArith Qround Qfield Qpower ZArith NArith List Bool Lia DecimalString.
From stdpp Require Import base option list.

Open Scope string_scope.
Open Scope list_scope.

(** ** Display of byte sizes: [formatBytes] (lines 4-14) *)

Module Js.

(** [String(n)] for a non-negative integer. *)
Definition digits (n : Z) : string := NilZero.string_of_uint (N.to_uint (Z.to_N n)).

Fixpoint zeros (k : nat) : string :=
  match k with
  | O => ""
  | S k' => "0" ++ zeros k'
  end.

(** [x.toFixed(f)] for [0 <= x < 10^21], after ECMA-262 21.1.3.3: [n] is
    the integer for which [n / 10^f - x] is as close to zero as possible,
    the larger one when there are two; its decimal digits are padded on
    the left to [f + 1] characters and the point is put before the last
    [f] of them. *)
Definition toFixed (x : Q) (f : nat) : string :=
  let n := Qfloor (x * inject_Z (10 ^ Z.of_nat f) + (1 # 2)) in
  let m := if (n =? 0)%Z then "0" else digits n in
  if (f =? 0)%nat then m
  else
    let k := String.length m in
    let m := if (k <=? f)%nat then (zeros (f + 1 - k) ++ m)%string else m in
    let k := String.length m in
    (substring 0 (k - f) m ++ "." ++ substring (k - f) f m)%string.

(** A value of type [number] as the component can hold one in a size
    field: a non-negative integer, or nothing usable ([undefined], [NaN]). *)
Definition number := option N.

(** [!x] *)
Definition not (x : number) : bool :=
  match x with
  | None => true
  | Some n => (n =? 0)%N
  end.

(** [x !== 0] *)
Definition strict_ne_0 (x : number) : bool :=
  match x with
  | None => true
  | Some n => negb (n =? 0)%N
  end.

End Js.

Definition units : list string := ["B"; "KB"; "MB"; "GB"].

(** The [while] loop of line 9, with the number of iterations left as fuel.
    The guard [idx < units.length - 1] bounds the iterations by three. *)
Fixpoint scale (fuel : nat) (value : Q) (idx : nat) : Q * nat :=
  match fuel with
  | O => (value, idx)
  | S fuel' =>
      if Qle_bool 1024 value && (idx <? length units - 1)%nat
      then scale fuel' (value / 1024)%Q (idx + 1)%nat
      else (value, idx)
  end.

Definition formatBytes (bytes : Js.number) : string :=
  if Js.not bytes && Js.strict_ne_0 bytes then "-"
  else
    let '(value, idx) := scale (length units - 1) (inject_Z (Z.of_N (default 0%N bytes))) 0 in
    (Js.toFixed value (if Qle_bool 10 value || (idx =? 0)%nat then 0 else 1)
       ++ " " ++ nth idx units "undefined")%string.

(** [value] after [j] divisions by 1024. *)
Definition shrink (value : Q) (j : nat) : Q := (value / 1024 ^ Z.of_nat j)%Q.

Definition after_divisions (b : N) (j : nat) : Q := shrink (inject_Z (Z.of_N b)) j.

(** The contract of the specification, in its own words: [k] divisions by
    1024 have occurred on [b] when every division was taken on a value of at
    least 1024, there are at most three, and fewer than three only if the
    value has dropped below 1024. *)
Definition divisions (b : N) (k : nat) : Prop :=
  (k <= 3)%nat
  /\ (forall j, (j < k)%nat -> (1024 <= after_divisions b j)%Q)
  /\ ((k < 3)%nat -> (after_divisions b k < 1024)%Q).

(** No decimal when the value is at least 10 or nothing was divided, one
    decimal otherwise. *)
Definition decimals (value : Q) (k : nat) : nat :=
  if Qle_bool 10 value || (k =? 0)%nat then 0 else 1.

(** ** The component's data (lines 24-50) *)

Module File.
(** A DOM [File]: the two properties the component reads, and the bytes a
    [FileReader] delivers for it. *)
Record t := mk { name : string; size : N; data : list Byte.byte }.
End File.

Module PdfInfo.
Record t := mk { name : string; pages : nat; size : N }.

(** [{ name: "-", pages: 0, size: 0 }], the value every reset writes. *)
Definition empty : t := mk "-" 0 0.
End PdfInfo.

Module Status.
Definition selectTwo : string := "PDFを2つ選択してください。".
Definition failedA : string := "PDF Aの読み込みに失敗しました。".
Definition failedB : string := "PDF Bの読み込みに失敗しました。".
Definition merging : string := "結合中...".
Definition done : string := "完了しました。".
Definition mergeFailed : string := "結合に失敗しました。PDFを確認してください。".
End Status.

Record State := mkState {
  oddFile : option File.t;
  evenFile : option File.t;
  oddInfo : PdfInfo.t;
  evenInfo : PdfInfo.t;
  status : string;
  busy : bool;
  downloadUrl : string;
  resultInfo : PdfInfo.t
}.

(** The values given to [useState] on the first render. *)
Definition initial : State :=
  {| oddFile := None; evenFile := None;
     oddInfo := PdfInfo.empty; evenInfo := PdfInfo.empty;
     status := Status.selectTwo; busy := false;
     downloadUrl := ""; resultInfo := PdfInfo.empty |}.

Definition setOddFile (v : option File.t) (s : State) : State :=
  mkState v (evenFile s) (oddInfo s) (evenInfo s) (status s) (busy s) (downloadUrl s) (resultInfo s).
Definition setEvenFile (v : option File.t) (s : State) : State :=
  mkState (oddFile s) v (oddInfo s) (evenInfo s) (status s) (busy s) (downloadUrl s) (resultInfo s).
Definition setOddInfo (v : PdfInfo.t) (s : State) : State :=
  mkState (oddFile s) (evenFile s) v (evenInfo s) (status s) (busy s) (downloadUrl s) (resultInfo s).
Definition setEvenInfo (v : PdfInfo.t) (s : State) : State :=
  mkState (oddFile s) (evenFile s) (oddInfo s) v (status s) (busy s) (downloadUrl s) (resultInfo s).
Definition setStatus (v : string) (s : State) : State :=
  mkState (oddFile s) (evenFile s) (oddInfo s) (evenInfo s) v (busy s) (downloadUrl s) (resultInfo s).
Definition setBusy (v : bool) (s : State) : State :=
  mkState (oddFile s) (evenFile s) (oddInfo s) (evenInfo s) (status s) v (downloadUrl s) (resultInfo s).
Definition setDownloadUrl (v : string) (s : State) : State :=
  mkState (oddFile s) (evenFile s) (oddInfo s) (evenInfo s) (status s) (busy s) v (resultInfo s).
Definition setResultInfo (v : PdfInfo.t) (s : State) : State :=
  mkState (oddFile s) (evenFile s) (oddInfo s) (evenInfo s) (status s) (busy s) (downloadUrl s) v.

(** [oddFile && evenFile && !busy] (lines 59-62), as the truth value the
    button's [disabled={!canMerge}] takes of it. *)
Definition canMerge (s : State) : bool :=
  bool_decide (is_Some (oddFile s)) && bool_decide (is_Some (evenFile s)) && negb (busy s).

(** What the result panel shows (lines 223-238): the link is live when
    [downloadUrl] is a non-empty string, the metadata line is printed when
    [resultInfo.pages] is not zero. *)
Definition linkEnabled (s : State) : bool := negb (String.eqb (downloadUrl s) "").
Definition resultLine (s : State) : option string :=
  if (PdfInfo.pages (resultInfo s) =? 0)%nat then None
  else Some (PdfInfo.name (resultInfo s) ++ " ・ "
             ++ Js.digits (Z.of_nat (PdfInfo.pages (resultInfo s))) ++ "ページ ・ "
             ++ formatBytes (Some (PdfInfo.size (resultInfo s))))%string.

(** ** The collaborators: [FileReader], pdf-lib, [URL.createObjectURL] *)

Record Collaborators (Page : Type) := {
  (** the reader fires [onerror] instead of [onload] *)
  readerError : File.t -> bool;
  (** [PDFDocument.load(bytes)]: the pages of the parsed document *)
  load : list Byte.byte -> option (list Page);
  (** the copy of one source page into the output document, the work of
      [output.copyPages(src, [i])] on page [i] of [src] *)
  copy : Page -> option Page;
  (** [output.save()] *)
  save : list Page -> option (list Byte.byte);
  (** the identifier the browser mints for a blob URL *)
  objectId : list Byte.byte -> string
}.
Arguments readerError {Page}.
Arguments load {Page}.
Arguments copy {Page}.
Arguments save {Page}.
Arguments objectId {Page}.

(** A continuation parked at an [await]: the rest of a handler, with the
    values its closure captured. *)
Inductive Task :=
| InspectOdd (file : File.t)
| InspectEven (file : File.t)
| Merging (oddFile evenFile : File.t).

Inductive Event :=
| ChangeOdd (file : option File.t)
| ChangeEven (file : option File.t)
| ClickMerge
| Settle (n : nat).

Record System := mkSystem { ui : State; pending : list Task }.

Definition isMerging (t : Task) : bool :=
  match t with
  | Merging _ _ => true
  | _ => false
  end.

Section Component.

Context {Page : Type} (lib : Collaborators Page).

(** lines 16-22 *)
Definition readArrayBuffer (file : File.t) : option (list Byte.byte) :=
  if readerError lib file then None else Some (File.data file).

(** The file cannot be read, or what is read is not a PDF: the two ways
    [inspectPdf] throws. *)
Definition loadFails (file : File.t) : Prop :=
  readArrayBuffer file ≫= load lib = None.

(** [URL.createObjectURL(blob)].  The browser mints a new identifier at
    every call; here the identifier is told by the blob alone, so that a
    URL stands for the blob it was minted for. *)
Definition createObjectURL (blob : list Byte.byte) : string :=
  ("blob:" ++ objectId lib blob)%string.

(** lines 64-76; [file] is never null at the two call sites. *)
Definition inspectPdf (file : File.t) (setInfo : PdfInfo.t -> State -> State)
    (s : State) : option State :=
  bytes ← readArrayBuffer file;
  pdf ← load lib bytes;
  Some (setInfo {| PdfInfo.name := File.name file;
                   PdfInfo.pages := length pdf;
                   PdfInfo.size := File.size file |} s).

(** [output.copyPages(src, [i])]; an index out of range throws. *)
Definition copyPages (src : list Page) (i : nat) : option Page :=
  src !! i ≫= copy lib.

Definition addPage (output : list Page) (page : Page) : list Page :=
  output ++ [page].

(** The body of the [for] loop, lines 141-148. *)
Definition iteration (oddPdf evenPdf : list Page) (i : nat) (output : list Page)
    : option (list Page) :=
  output ←
    (if (i <? length oddPdf)%nat
     then page ← copyPages oddPdf i; Some (addPage output page)
     else Some output);
  if (i <? length evenPdf)%nat
  then page ← copyPages evenPdf i; Some (addPage output page)
  else Some output.

(** [for (let i = ...; i < maxPages; i += 1)], by the number of rounds
    left, [maxPages - i]. *)
Fixpoint forLoop (oddPdf evenPdf : list Page) (rounds i : nat) (output : list Page)
    : option (list Page) :=
  match rounds with
  | O => Some output
  | S rounds' =>
      output' ← iteration oddPdf evenPdf i output;
      forLoop oddPdf evenPdf rounds' (i + 1) output'
  end.

(** lines 135-149 *)
Definition interleavePages (oddPdf evenPdf : list Page) : option (list Page) :=
  let maxPages := Nat.max (length oddPdf) (length evenPdf) in
  forLoop oddPdf evenPdf maxPages 0 [].

(** lines 158-159 *)
Definition mergedName (oddFile : File.t) : string :=
  let baseName := if String.eqb (File.name oddFile) "" then "interleaved.pdf"
                  else File.name oddFile in
  ("al-" ++ baseName)%string.

(** [output.getPageCount()] once [output.save()] has run (lines 151 and
    162).  With its default options pdf-lib's [save] first adds a blank
    page to a document that has none, so the count read afterwards is 1
    for an output the loop left without pages. *)
Definition savedPageCount (output : list Page) : nat :=
  if (length output =? 0)%nat then 1 else length output.

(** The [try] block of [mergePdfs] up to the values it hands to the
    setters (lines 126-165); [None] is any exception on the way.  [output]
    is the page sequence the loop appended. *)
Definition merge (oddFile evenFile : File.t) : option (list Page * string * PdfInfo.t) :=
  oddBytes ← readArrayBuffer oddFile;
  evenBytes ← readArrayBuffer evenFile;
  oddPdf ← load lib oddBytes;
  evenPdf ← load lib evenBytes;
  output ← interleavePages oddPdf evenPdf;
  mergedBytes ← save lib output;
  let url := createObjectURL mergedBytes in
  Some (output, url,
        {| PdfInfo.pages := savedPageCount output;
           PdfInfo.size := N.of_nat (length mergedBytes);
           PdfInfo.name := mergedName oddFile |}).

(** *** [handleOddChange] (lines 78-97) *)

Definition handleOddChange_sync (file : option File.t) (s : State) : State * option Task :=
  let s := setOddFile file s in
  let s := setDownloadUrl "" s in
  let s := setResultInfo PdfInfo.empty s in
  match file with
  | None => (setStatus Status.selectTwo (setOddInfo PdfInfo.empty s), None)
  | Some f => (s, Some (InspectOdd f))
  end.

Definition handleOddChange_settle (file : File.t) (s : State) : State :=
  match inspectPdf file setOddInfo s with
  | Some s' => setStatus Status.selectTwo s'
  | None => setOddInfo PdfInfo.empty (setStatus Status.failedA s)
  end.

(** *** [handleEvenChange] (lines 99-118) *)

Definition handleEvenChange_sync (file : option File.t) (s : State) : State * option Task :=
  let s := setEvenFile file s in
  let s := setDownloadUrl "" s in
  let s := setResultInfo PdfInfo.empty s in
  match file with
  | None => (setStatus Status.selectTwo (setEvenInfo PdfInfo.empty s), None)
  | Some f => (s, Some (InspectEven f))
  end.

Definition handleEvenChange_settle (file : File.t) (s : State) : State :=
  match inspectPdf file setEvenInfo s with
  | Some s' => setStatus Status.selectTwo s'
  | None => setEvenInfo PdfInfo.empty (setStatus Status.failedB s)
  end.

(** *** [mergePdfs] (lines 120-172) *)

Definition mergePdfs_sync (s : State) : State * option Task :=
  match oddFile s, evenFile s with
  | Some a, Some b =>
      let s := setBusy true s in
      let s := setStatus Status.merging s in
      let s := setDownloadUrl "" s in
      (s, Some (Merging a b))
  | _, _ => (s, None)
  end.

Definition mergePdfs_settle (oddFile evenFile : File.t) (s : State) : State :=
  let s :=
    match merge oddFile evenFile with
    | Some (output, url, info) =>
        let s := setDownloadUrl url s in
        let s := setResultInfo info s in
        setStatus Status.done s
    | None => setStatus Status.mergeFailed s
    end in
  setBusy false s.

(** *** Handlers run with nothing in between *)

Definition settle (t : Task) (s : State) : State :=
  match t with
  | InspectOdd f => handleOddChange_settle f s
  | InspectEven f => handleEvenChange_settle f s
  | Merging a b => mergePdfs_settle a b s
  end.

Definition complete (r : State * option Task) : State :=
  match r with
  | (s, Some t) => settle t s
  | (s, None) => s
  end.

Definition handleOddChange (file : option File.t) (s : State) : State :=
  complete (handleOddChange_sync file s).
Definition handleEvenChange (file : option File.t) (s : State) : State :=
  complete (handleEvenChange_sync file s).
Definition mergePdfs (s : State) : State :=
  complete (mergePdfs_sync s).

(** *** The event loop

    A DOM event runs the code of its handler up to the first [await] and
    parks the rest; a parked continuation is run when its promise settles,
    in any order.  The button carries [disabled={!canMerge}] (line 213),
    so a click reaches [mergePdfs] only when [canMerge] holds. *)

Definition park (σ : System) (r : State * option Task) : System :=
  {| ui := fst r; pending := pending σ ++ option_list (snd r) |}.

Definition step (σ : System) (e : Event) : System :=
  match e with
  | ChangeOdd file => park σ (handleOddChange_sync file (ui σ))
  | ChangeEven file => park σ (handleEvenChange_sync file (ui σ))
  | ClickMerge => if canMerge (ui σ) then park σ (mergePdfs_sync (ui σ)) else σ
  | Settle n =>
      match pending σ !! n with
      | Some t => {| ui := settle t (ui σ); pending := delete n (pending σ) |}
      | None => σ
      end
  end.

Definition boot : System := {| ui := initial; pending := [] |}.

Definition run (es : list Event) : System := fold_left step es boot.

End Component.

(** The number of merges that have been started and have not settled. *)
Definition inFlight (σ : System) : nat :=
  length (List.filter isMerging (pending σ)).

(** The flag and the parked continuations agree: [busy] is up exactly
    while one merge is in flight, and there is never a second one. *)
Definition consistent (σ : System) : Prop :=
  inFlight σ = if busy (ui σ) then 1 else 0.

(** The alternation of the specification (4.2, step 3), on the sources'
    pages themselves. *)
Fixpoint alternate {Page : Type} (A B : list Page) : list Page :=
  match A, B with
  | [], _ => B
  | _, [] => A
  | a :: A', b :: B' => a :: b :: alternate A' B'
  end.

(** The same alternation written the way the specification words it: for
    each index below the longer length, the first source's page if it has
    one, then the second's. *)
Definition alternation {Page : Type} (A B : list Page) : list Page :=
  flat_map (fun i => option_list (A !! i) ++ option_list (B !! i))
           (seq 0 (Nat.max (length A) (length B))).

(** Output page [i] is the copy of page [j] of [src]. *)
Definition copyOf {Page : Type} (lib : Collaborators Page)
    (output : list Page) (i : nat) (src : list Page) (j : nat) : Prop :=
  exists p p', src !! j = Some p /\ copy lib p = Some p' /\ output !! i = Some p'.

(** ** A concrete set of collaborators, for running the model

    A page is a number.  A file parses when its first byte is [%] and its
    other bytes are then its pages; page 255 cannot be copied; the copy of
    page [p] is page [1000 + p]; a document of more than six pages cannot
    be saved; a file named [gone.pdf] cannot be read. *)
Module Fixture.

Definition lib : Collaborators nat :=
  {| readerError := fun f => String.eqb (File.name f) "gone.pdf";
     load := fun bytes =>
       match bytes with
       | Byte.x25 :: pages => Some (map (fun b => nat_of_ascii (ascii_of_byte b)) pages)
       | _ => None
       end;
     copy := fun p => if (p =? 255)%nat then None else Some (1000 + p)%nat;
     save := fun pages =>
       if (6 <? length pages)%nat then None
       else Some (Byte.x25 :: map (fun _ => Byte.x00) pages);
     objectId := fun _ => "0" |}.

Definition file (name : string) (data : list Byte.byte) : File.t :=
  File.mk name (N.of_nat (length data)) data.

(** three pages, 1 2 3 *)
Definition report : File.t := file "report.pdf" [Byte.x25; Byte.x01; Byte.x02; Byte.x03].
(** two pages, 17 18 *)
Definition notes : File.t := file "notes.pdf" [Byte.x25; Byte.x11; Byte.x12].
(** not a PDF *)
Definition letter : File.t := file "letter.txt" [Byte.x68; Byte.x69].
(** one page, which cannot be copied *)
Definition broken : File.t := file "broken.pdf" [Byte.x25; Byte.xff].
(** five pages: merged with itself it cannot be saved *)
Definition book : File.t :=
  file "book.pdf" [Byte.x25; Byte.x01; Byte.x02; Byte.x03; Byte.x04; Byte.x05].
(** a file whose name is the fallback base name *)
Definition interleaved : File.t := file "interleaved.pdf" [Byte.x25; Byte.x01].
(** a file without a name *)
Definition anonymous : File.t := file "" [Byte.x25; Byte.x01].
(** a PDF without pages *)
Definition blank : File.t := file "blank.pdf" [Byte.x25].

(** both sources chosen and inspected, nothing merged yet *)
Definition loaded : State :=
  handleEvenChange lib (Some notes) (handleOddChange lib (Some report) initial).

(** the same after one merge: an artifact is on display *)
Definition merged : State := mergePdfs lib loaded.

Definition choose : list Event :=
  [ChangeOdd (Some report); Settle 0; ChangeEven (Some notes); Settle 0].

(** merge, and ask for the same merge again *)
Definition again : list Event := choose ++ [ClickMerge; Settle 0; ClickMerge].

(** swap source A for [broken] while the first merge is in flight, let
    the inspection and then the merge settle, and merge again *)
Definition swap : list Event :=
  choose ++ [ClickMerge; ChangeOdd (Some broken); Settle 1; Settle 0;
             ClickMerge; Settle 0].

(** choose a text file for slot A, then press the button *)
Definition wrong : list Event :=
  [ChangeEven (Some notes); Settle 0; ChangeOdd (Some letter); Settle 0].

End Fixture.

(** ** The rest of the component *)

(** The unit index in closed form: the thresholds at which the loop of
    [formatBytes] stops. *)
Definition unitIndex (b : N) : nat :=
  if (b <? 1024)%N then 0
  else if (b <? 1024 * 1024)%N then 1
  else if (b <? 1024 * 1024 * 1024)%N then 2
  else 3.

(** *** What is rendered (lines 174-241) *)

(** The text of a [meta] line:
    [{info.name} ・ {info.pages}ページ ・ {formatBytes(info.size)}]. *)
Definition metaLine (info : PdfInfo.t) : string :=
  (PdfInfo.name info ++ " ・ " ++ Js.digits (Z.of_nat (PdfInfo.pages info))
   ++ "ページ ・ " ++ formatBytes (Some (PdfInfo.size info)))%string.

Module Label.
Definition merge : string := "結合する".
Definition notYet : string := "まだ生成されていません。".
End Label.

Record View := mkView {
  oddMeta : string;
  evenMeta : string;
  buttonDisabled : bool;
  buttonLabel : string;
  statusText : string;
  linkClass : string;
  href : string;
  download : string;
  (** the link's [onClick] calls [event.preventDefault()] *)
  clickPrevented : bool;
  resultMeta : string
}.

Definition render (s : State) : View :=
  {| oddMeta := metaLine (oddInfo s);
     evenMeta := metaLine (evenInfo s);
     buttonDisabled := negb (canMerge s);
     buttonLabel := if busy s then Status.merging else Label.merge;
     statusText := status s;
     linkClass := ("download " ++ if String.eqb (downloadUrl s) "" then "disabled" else "")%string;
     href := if String.eqb (downloadUrl s) "" then "#" else downloadUrl s;
     download := PdfInfo.name (resultInfo s);
     clickPrevented := String.eqb (downloadUrl s) "";
     resultMeta := if (PdfInfo.pages (resultInfo s) =? 0)%nat then Label.notYet
                   else metaLine (resultInfo s) |}.

(** *** The effect that releases the object URL (lines 51-57)

    The browser keeps the object URLs that were created and not revoked.
    The effect depends on [downloadUrl]: when a render commits a different
    [downloadUrl], the cleanup of the effect of the render before runs, with
    the [downloadUrl] of that render. *)

(** [URL.revokeObjectURL(url)] on the browser's URLs. *)
Fixpoint revokeObjectURL (url : string) (objects : list string) : list string :=
  match objects with
  | [] => []
  | o :: objects' =>
      if String.eqb o url then objects' else o :: revokeObjectURL url objects'
  end.

(** [if (downloadUrl) { URL.revokeObjectURL(downloadUrl); }] *)
Definition cleanup (downloadUrl : string) (objects : list string) : list string :=
  if String.eqb downloadUrl "" then objects else revokeObjectURL downloadUrl objects.

Definition commit (before after : State) (objects : list string) : list string :=
  if String.eqb (downloadUrl before) (downloadUrl after) then objects
  else cleanup (downloadUrl before) objects.

Record Browser := mkBrowser { component : System; objects : list string }.

(** A handler run to its end as one step of a session in which the user
    waits for each operation before starting the next. *)
Inductive Action :=
| ChooseOdd (file : option File.t)
| ChooseEven (file : option File.t)
| PressMerge.

Section Rest.

Context {Page : Type} (lib : Collaborators Page).

(** The object URLs [URL.createObjectURL] returns during a step: one, when
    the step settles a merge that gets as far as line 157. *)
Definition minted (σ : System) (e : Event) : list string :=
  match e with
  | Settle n =>
      match pending σ !! n with
      | Some (Merging a b) =>
          match merge lib a b with
          | Some (_, url, _) => [url]
          | None => []
          end
      | _ => []
      end
  | _ => []
  end.

Definition stepB (β : Browser) (e : Event) : Browser :=
  let σ' := step lib (component β) e in
  {| component := σ';
     objects := commit (ui (component β)) (ui σ') (objects β ++ minted (component β) e) |}.

Definition bootB : Browser := {| component := boot; objects := [] |}.

Definition runB (es : list Event) : Browser := fold_left stepB es bootB.

Definition act (s : State) (a : Action) : State :=
  match a with
  | ChooseOdd file => handleOddChange lib file s
  | ChooseEven file => handleEvenChange lib file s
  | PressMerge => if canMerge s then mergePdfs lib s else s
  end.

Definition session (actions : list Action) : State := fold_left act actions initial.

(** The events of a session: each action is its DOM event followed, when
    the handler awaits, by the settling of the one continuation it parked. *)
Definition events (s : State) (a : Action) : list Event :=
  match a with
  | ChooseOdd None => [ChangeOdd None]
  | ChooseOdd (Some f) => [ChangeOdd (Some f); Settle 0]
  | ChooseEven None => [ChangeEven None]
  | ChooseEven (Some f) => [ChangeEven (Some f); Settle 0]
  | PressMerge => if canMerge s then [ClickMerge; Settle 0] else [ClickMerge]
  end.

Fixpoint script (s : State) (actions : list Action) : list Event :=
  match actions with
  | [] => []
  | a :: actions' => events s a ++ script (act s a) actions'
  end.

(** The artifact slot holds the whole result of the merge of [a] and [b]. *)
Definition artifactOf (a b : File.t) (s : State) : Prop :=
  exists output url info,
    merge lib a b = Some (output, url, info)
    /\ downloadUrl s = url /\ resultInfo s = info.

(** The result metadata is that of the merge of [a] and [b]. *)
Definition metadataOf (a b : File.t) (s : State) : Prop :=
  exists output url info,
    merge lib a b = Some (output, url, info) /\ resultInfo s = info.

End Rest.

(** * Properties *)

(** ** Display of byte sizes *)

Example formatBytes_0 : formatBytes (Some 0%N) = "0 B".
Proof. reflexivity. Qed.
Example formatBytes_1023 : formatBytes (Some 1023%N) = "1023 B".
Proof. vm_compute. reflexivity. Qed.
Example formatBytes_1536 : formatBytes (Some 1536%N) = "1.5 KB".
Proof. vm_compute. reflexivity. Qed.
Example formatBytes_10240 : formatBytes (Some 10240%N) = "10 KB".
Proof. vm_compute. reflexivity. Qed.
Example formatBytes_round_up : formatBytes (Some 10200%N) = "10.0 KB".
Proof. vm_compute. reflexivity. Qed.
Example formatBytes_mb : formatBytes (Some 5242880%N) = "5.0 MB".
Proof. vm_compute. reflexivity. Qed.
Example formatBytes_tb : formatBytes (Some 1099511627776%N) = "1024 GB".
Proof. vm_compute. reflexivity. Qed.
Example formatBytes_1024 : formatBytes (Some 1024%N) = "1.0 KB".
Proof. vm_compute. reflexivity. Qed.
Example formatBytes_below_mb : formatBytes (Some 1048575%N) = "1024 KB".
Proof. vm_compute. reflexivity. Qed.
Example formatBytes_gb : formatBytes (Some 1610612736%N) = "1.5 GB".
Proof. vm_compute. reflexivity. Qed.
Example formatBytes_absent : formatBytes None = "-".
Proof. reflexivity. Qed.
Example toFixed_half_up : Js.toFixed (25 # 100) 1 = "0.3" /\ Js.toFixed (5 # 10) 0 = "1".
Proof. vm_compute. split; reflexivity. Qed.

Lemma shrink_0 v : (shrink v 0 == v)%Q.
Proof. unfold shrink. simpl. field. Qed.

Lemma shrink_S v j : (shrink v (S j) == shrink (v / 1024) j)%Q.
Proof.
  unfold shrink. rewrite Nat2Z.inj_succ. unfold Z.succ.
  rewrite Qpower_plus by discriminate.
  assert (H : ~ (1024 ^ Z.of_nat j == 0)%Q).
  { apply Qpower_not_0. discriminate. }
  change (1024 ^ 1)%Q with 1024%Q. field. exact H.
Qed.

Lemma Qle_bool_false x y : Qle_bool x y = false -> (y < x)%Q.
Proof.
  intros H. apply Qnot_le_lt. intros Hle.
  apply Qle_bool_iff in Hle. congruence.
Qed.

Lemma scale_spec fuel v idx v' k :
  (idx <= 3)%nat -> (3 - idx <= fuel)%nat ->
  scale fuel v idx = (v', k) ->
  (idx <= k <= 3)%nat
  /\ (v' == shrink v (k - idx))%Q
  /\ (forall j, (j < k - idx)%nat -> (1024 <= shrink v j)%Q)
  /\ ((k < 3)%nat -> (v' < 1024)%Q).
Proof.
  revert v idx. induction fuel as [|fuel IH]; intros v idx Hidx Hfuel Hs.
  - simpl in Hs. injection Hs as <- <-.
    replace (idx - idx)%nat with 0%nat by lia.
    repeat split; try lia. symmetry. apply shrink_0.
  - simpl in Hs.
    destruct (Qle_bool 1024 v) eqn:Hv; simpl in Hs.
    + destruct (idx <? 3)%nat eqn:Hlt.
      * apply Nat.ltb_lt in Hlt.
        apply IH in Hs; [|lia|lia].
        destruct Hs as (Hk & Hv' & Hall & Hexit).
        replace (k - idx)%nat with (S (k - (idx + 1)))%nat by lia.
        repeat split; try lia.
        -- rewrite shrink_S. exact Hv'.
        -- intros [|j] Hj.
           ++ rewrite shrink_0. by apply Qle_bool_iff.
           ++ rewrite shrink_S. apply Hall. lia.
        -- exact Hexit.
      * apply Nat.ltb_ge in Hlt. injection Hs as <- <-.
        replace (idx - idx)%nat with 0%nat by lia.
        repeat split; try lia. symmetry. apply shrink_0.
    + injection Hs as <- <-.
      replace (idx - idx)%nat with 0%nat by lia.
      repeat split; try lia.
      * symmetry. apply shrink_0.
      * intros _. by apply Qle_bool_false.
Qed.

Lemma toFixed_Qeq x y f : (x == y)%Q -> Js.toFixed x f = Js.toFixed y f.
Proof. intros H. unfold Js.toFixed. assert (E : Qfloor (x * inject_Z (10 ^ Z.of_nat f) + (1 # 2)) = Qfloor (y * inject_Z (10 ^ Z.of_nat f) + (1 # 2))) by (by rewrite H). cbv zeta. by rewrite E. Qed.

Lemma decimals_Qeq x y k : (x == y)%Q -> decimals x k = decimals y k.
Proof. intros H. unfold decimals. assert (E : Qle_bool 10 x = Qle_bool 10 y) by (by rewrite H). by rewrite E. Qed.

Lemma divisions_unique b k k' : divisions b k -> divisions b k' -> k = k'.
Proof.
  intros (Hk & Hall & Hexit) (Hk' & Hall' & Hexit').
  destruct (Nat.lt_trichotomy k k') as [Hlt|[Heq|Hgt]]; [|done|].
  - exfalso. apply (Qlt_not_le _ _ (Hexit ltac:(lia))). by apply Hall'.
  - exfalso. apply (Qlt_not_le _ _ (Hexit' ltac:(lia))). by apply Hall.
Qed.

(** C9. An absent byte count is displayed as ["-"].  A byte count [b] is
    displayed as the value left after [k] divisions by 1024, where [k] is
    the one number of divisions that were each taken on a value of at least
    1024, that are at most three, and that are fewer than three only when
    the value left is below 1024; the unit is the [k]-th of B, KB, MB, GB;
    the value is printed with no decimal when it is at least 10 or [k] is 0
    and with one decimal otherwise. *)
Theorem formatBytes_contract :
  formatBytes None = "-"
  /\ forall b : N, exists k unit,
       divisions b k
       /\ (forall k', divisions b k' -> k' = k)
       /\ units !! k = Some unit
       /\ formatBytes (Some b)
          = (Js.toFixed (after_divisions b k) (decimals (after_divisions b k) k)
             ++ " " ++ unit)%string.
Proof.
  split; [reflexivity|]. intros b.
  unfold formatBytes.
  replace (Js.not (Some b) && Js.strict_ne_0 (Some b)) with false
    by (simpl; by destruct (b =? 0)%N).
  change (length units - 1)%nat with 3%nat.
  destruct (scale 3 (inject_Z (Z.of_N (default 0%N (Some b)))) 0) as [value idx] eqn:Hs.
  apply scale_spec in Hs; [|lia|lia].
  rewrite Nat.sub_0_r in Hs. destruct Hs as (Hk & Hv & Hall & Hexit).
  change (shrink (inject_Z (Z.of_N (default 0%N (Some b))))) with (after_divisions b) in *.
  assert (Hu : exists unit, units !! idx = Some unit /\ nth idx units "undefined" = unit).
  { destruct idx as [|[|[|[|idx]]]]; simpl; eauto. lia. }
  destruct Hu as (unit & Hu & Hnth).
  assert (Hdiv : divisions b idx).
  { split; [lia|]. split; [done|]. intros Hlt. rewrite <- Hv. auto. }
  exists idx, unit. split; [done|]. split; [|split; [done|]].
  - intros k' Hk'. by apply (divisions_unique b).
  - rewrite Hnth. fold (decimals value idx).
    by rewrite (toFixed_Qeq _ _ _ Hv), (decimals_Qeq _ _ _ Hv).
Qed.

(** ** The interleaving loop *)

Section Alternate.

Context {Page : Type}.
Implicit Types A B : list Page.

Lemma lookup_succ (x : Page) l i : (x :: l) !! S i = l !! i.
Proof. done. Qed.

Lemma alternate_nil_r A : alternate A [] = A.
Proof. by destruct A. Qed.

Lemma alternate_length A B : length (alternate A B) = length A + length B.
Proof.
  revert B. induction A as [|a A IH]; intros [|b B]; simpl; try lia.
  rewrite IH. lia.
Qed.

Lemma alternate_lookup_even A B k :
  k < Nat.min (length A) (length B) -> alternate A B !! (2 * k) = A !! k.
Proof.
  revert B k. induction A as [|a A IH]; intros [|b B] k Hk;
    cbn [length Nat.min] in Hk; try lia.
  destruct k as [|k]; [done|].
  replace (2 * S k) with (S (S (2 * k))) by lia.
  cbn [alternate]. rewrite !lookup_succ. apply IH. lia.
Qed.

Lemma alternate_lookup_odd A B k :
  k < Nat.min (length A) (length B) -> alternate A B !! (2 * k + 1) = B !! k.
Proof.
  revert B k. induction A as [|a A IH]; intros [|b B] k Hk;
    cbn [length Nat.min] in Hk; try lia.
  destruct k as [|k]; [done|].
  replace (2 * S k + 1) with (S (S (2 * k + 1))) by lia.
  cbn [alternate]. rewrite !lookup_succ. apply IH. lia.
Qed.

Lemma alternate_lookup_tail_l A B i :
  length B <= length A -> 2 * length B <= i ->
  alternate A B !! i = A !! (i - length B).
Proof.
  revert B i. induction A as [|a A IH]; intros [|b B] i Hlen Hi; simpl in *; try lia.
  - done.
  - by rewrite Nat.sub_0_r.
  - destruct i as [|[|i]]; try lia. simpl.
    rewrite IH by lia.
    replace (S i - length B) with (S (i - length B)) by lia. done.
Qed.

Lemma alternate_lookup_tail_r A B i :
  length A <= length B -> 2 * length A <= i ->
  alternate A B !! i = B !! (i - length A).
Proof.
  revert B i. induction A as [|a A IH]; intros [|b B] i Hlen Hi; simpl in *; try lia.
  - done.
  - by rewrite Nat.sub_0_r.
  - destruct i as [|[|i]]; try lia. simpl.
    rewrite IH by lia.
    replace (S i - length A) with (S (i - length A)) by lia. done.
Qed.

Lemma alternate_perm A B : alternate A B ≡ₚ A ++ B.
Proof.
  revert B. induction A as [|a A IH]; intros [|b B]; simpl; try done.
  - by rewrite app_nil_r.
  - rewrite IH. rewrite <- Permutation_middle. done.
Qed.

(** The loop over indices and the structural alternation agree. *)
Lemma alternation_from A B i :
  flat_map (fun j => option_list (A !! j) ++ option_list (B !! j))
           (seq i (Nat.max (length A) (length B) - i))
  = alternate (drop i A) (drop i B).
Proof.
  remember (Nat.max (length A) (length B) - i) as r eqn:Hr.
  revert i Hr. induction r as [|r IH]; intros i Hr; simpl.
  - rewrite !drop_ge by lia. done.
  - rewrite (IH (S i)) by lia.
    destruct (A !! i) as [a|] eqn:Ha; destruct (B !! i) as [b|] eqn:Hb; simpl.
    + rewrite (drop_S A a i Ha), (drop_S B b i Hb). done.
    + apply lookup_ge_None in Hb.
      rewrite (drop_S A a i Ha), !(drop_ge B) by lia.
      by rewrite alternate_nil_r.
    + apply lookup_ge_None in Ha.
      rewrite (drop_S B b i Hb), !(drop_ge A) by lia. done.
    + apply lookup_ge_None in Ha. apply lookup_ge_None in Hb. lia.
Qed.

Lemma alternation_alternate A B : alternation A B = alternate A B.
Proof.
  unfold alternation.
  rewrite <- (Nat.sub_0_r (Nat.max (length A) (length B))).
  by rewrite alternation_from, !drop_0.
Qed.

End Alternate.

Section Merger.

Context {Page : Type} (lib : Collaborators Page).
Implicit Types A B output : list Page.

Lemma iteration_both A B i output a b :
  A !! i = Some a -> B !! i = Some b ->
  iteration lib A B i output
  = a' ← copy lib a; b' ← copy lib b; Some (output ++ [a'; b']).
Proof.
  intros Ha Hb. unfold iteration, copyPages, addPage.
  rewrite (proj2 (Nat.ltb_lt _ _) (lookup_lt_Some _ _ _ Ha)).
  rewrite (proj2 (Nat.ltb_lt _ _) (lookup_lt_Some _ _ _ Hb)).
  rewrite Ha, Hb. simpl.
  destruct (copy lib a) as [a'|]; simpl; [|done].
  destruct (copy lib b) as [b'|]; simpl; [|done].
  by rewrite <- app_assoc.
Qed.

Lemma iteration_left A B i output a :
  A !! i = Some a -> B !! i = None ->
  iteration lib A B i output = a' ← copy lib a; Some (output ++ [a']).
Proof.
  intros Ha Hb. unfold iteration, copyPages, addPage.
  rewrite (proj2 (Nat.ltb_lt _ _) (lookup_lt_Some _ _ _ Ha)).
  rewrite (proj2 (Nat.ltb_ge _ _) (proj1 (lookup_ge_None _ _) Hb)).
  rewrite Ha. simpl. by destruct (copy lib a).
Qed.

Lemma iteration_right A B i output b :
  A !! i = None -> B !! i = Some b ->
  iteration lib A B i output = b' ← copy lib b; Some (output ++ [b']).
Proof.
  intros Ha Hb. unfold iteration, copyPages, addPage.
  rewrite (proj2 (Nat.ltb_ge _ _) (proj1 (lookup_ge_None _ _) Ha)).
  rewrite (proj2 (Nat.ltb_lt _ _) (lookup_lt_Some _ _ _ Hb)).
  rewrite Hb. simpl. done.
Qed.

(** The loop invariant: after [i] rounds the pages still to come are the
    copies of the alternation of what both sources have from [i] on. *)
Lemma forLoop_alternate A B rounds i output :
  rounds = Nat.max (length A) (length B) - i ->
  forLoop lib A B rounds i output
  = (fun rest => output ++ rest) <$> mapM (copy lib) (alternate (drop i A) (drop i B)).
Proof.
  revert i output. induction rounds as [|r IH]; intros i output Hr.
  - rewrite !drop_ge by lia. simpl. by rewrite app_nil_r.
  - cbn [forLoop]. replace (i + 1) with (S i) by lia.
    destruct (A !! i) as [a|] eqn:Ha; destruct (B !! i) as [b|] eqn:Hb.
    + rewrite (iteration_both _ _ _ _ _ _ Ha Hb).
      rewrite (drop_S A a i Ha), (drop_S B b i Hb). simpl.
      destruct (copy lib a) as [a'|]; simpl; [|done].
      destruct (copy lib b) as [b'|]; simpl; [|done].
      rewrite IH by lia.
      destruct (mapM _ _) as [rest|]; simpl; [|done].
      by rewrite <- app_assoc.
    + rewrite (iteration_left _ _ _ _ _ Ha Hb).
      pose proof (proj1 (lookup_ge_None _ _) Hb).
      rewrite (drop_S A a i Ha), (drop_ge B i) by lia.
      rewrite alternate_nil_r. simpl.
      destruct (copy lib a) as [a'|]; simpl; [|done].
      rewrite IH by lia. rewrite (drop_ge B (S i)) by lia.
      rewrite alternate_nil_r.
      destruct (mapM _ _) as [rest|]; simpl; [|done].
      by rewrite <- app_assoc.
    + rewrite (iteration_right _ _ _ _ _ Ha Hb).
      pose proof (proj1 (lookup_ge_None _ _) Ha).
      rewrite (drop_S B b i Hb), (drop_ge A i) by lia. simpl.
      destruct (copy lib b) as [b'|]; simpl; [|done].
      rewrite IH by lia. rewrite (drop_ge A (S i)) by lia. simpl.
      destruct (mapM _ _) as [rest|]; simpl; [|done].
      by rewrite <- app_assoc.
    + apply lookup_ge_None in Ha. apply lookup_ge_None in Hb. lia.
Qed.

(** The loop of [mergePdfs] returns the copies of the alternation, and
    throws exactly when one of these copies does. *)
Lemma interleavePages_alternation A B :
  interleavePages lib A B = mapM (copy lib) (alternation A B).
Proof.
  unfold interleavePages. rewrite forLoop_alternate by lia.
  rewrite !drop_0, alternation_alternate.
  by destruct (mapM _ _).
Qed.

Lemma mapM_copy_lookup l output i p :
  mapM (copy lib) l = Some output -> l !! i = Some p ->
  exists p', copy lib p = Some p' /\ output !! i = Some p'.
Proof.
  intros Hm Hl. apply mapM_Some in Hm.
  destruct (Forall2_lookup_l _ _ _ _ _ Hm Hl) as (p' & Ho & Hc). eauto.
Qed.

Lemma copyOf_intro l output i src j :
  mapM (copy lib) l = Some output -> j < length src -> l !! i = src !! j ->
  copyOf lib output i src j.
Proof.
  intros Hm Hj Hl.
  destruct (lookup_lt_is_Some_2 src j Hj) as [p Hp].
  rewrite Hp in Hl.
  destruct (mapM_copy_lookup _ _ _ _ Hm Hl) as (p' & ? & ?).
  exists p, p'. auto.
Qed.

Lemma interleavePages_length A B output :
  interleavePages lib A B = Some output -> length output = length A + length B.
Proof.
  rewrite interleavePages_alternation, alternation_alternate. intros Hm.
  apply length_mapM in Hm. rewrite <- Hm. apply alternate_length.
Qed.

(** Once both reads and both loads have succeeded, [merge] is the loop
    followed by [save]. *)
Lemma merge_Some oddFile evenFile output url info :
  merge lib oddFile evenFile = Some (output, url, info) ->
  exists A B mergedBytes,
    readerError lib oddFile = false /\ readerError lib evenFile = false
    /\ load lib (File.data oddFile) = Some A
    /\ load lib (File.data evenFile) = Some B
    /\ interleavePages lib A B = Some output
    /\ save lib output = Some mergedBytes
    /\ url = createObjectURL lib mergedBytes
    /\ info = {| PdfInfo.name := mergedName oddFile;
                 PdfInfo.pages := savedPageCount output;
                 PdfInfo.size := N.of_nat (length mergedBytes) |}.
Proof.
  unfold merge, readArrayBuffer. intros H.
  destruct (readerError lib oddFile) eqn:Hra; simpl in H; [done|].
  destruct (readerError lib evenFile) eqn:Hrb; simpl in H; [done|].
  destruct (load lib (File.data oddFile)) as [A|] eqn:HA; simpl in H; [|done].
  destruct (load lib (File.data evenFile)) as [B|] eqn:HB; simpl in H; [|done].
  destruct (interleavePages lib A B) as [out|] eqn:Hout; simpl in H; [|done].
  destruct (save lib out) as [mergedBytes|] eqn:Hsave; simpl in H; [|done].
  injection H as -> <- <-.
  exists A, B, mergedBytes. repeat split; assumption || reflexivity.
Qed.

(** C1. A successful merge of two loaded documents [A] and [B] puts out
    the copies of their pages in strict alternation by index: for every
    index below the longer length, the copy of [A]'s page if [A] has one,
    then the copy of [B]'s page if [B] has one.  Below the shorter length
    output page [2k] is [A]'s page [k] and output page [2k+1] is [B]'s page
    [k], so for equal lengths this holds of every [k]; past the
    alternating prefix the output is the rest of the longer document, in
    its order, every page once. *)
Theorem merge_alternates oddFile evenFile output url info :
  merge lib oddFile evenFile = Some (output, url, info) ->
  exists A B,
    load lib (File.data oddFile) = Some A
    /\ load lib (File.data evenFile) = Some B
    /\ mapM (copy lib) (alternation A B) = Some output
    /\ length output = length A + length B
    /\ (forall k, k < Nat.min (length A) (length B) ->
          copyOf lib output (2 * k) A k /\ copyOf lib output (2 * k + 1) B k)
    /\ (length A = length B -> forall k, k < length A ->
          copyOf lib output (2 * k) A k /\ copyOf lib output (2 * k + 1) B k)
    /\ (length B < length A -> forall i, 2 * length B <= i < length A + length B ->
          copyOf lib output i A (i - length B))
    /\ (length A < length B -> forall i, 2 * length A <= i < length A + length B ->
          copyOf lib output i B (i - length A)).
Proof.
  intros H. apply merge_Some in H.
  destruct H as (A & B & mergedBytes & _ & _ & HA & HB & Hout & _).
  exists A, B. split; [done|]. split; [done|].
  pose proof (interleavePages_length _ _ _ Hout) as Hlen.
  rewrite interleavePages_alternation in Hout.
  split; [done|]. split; [done|].
  rewrite alternation_alternate in Hout.
  assert (Hprefix : forall k, k < Nat.min (length A) (length B) ->
            copyOf lib output (2 * k) A k /\ copyOf lib output (2 * k + 1) B k).
  { intros k Hk. split.
    - apply (copyOf_intro _ _ _ _ _ Hout); [lia|]. by apply alternate_lookup_even.
    - apply (copyOf_intro _ _ _ _ _ Hout); [lia|]. by apply alternate_lookup_odd. }
  split; [done|]. split; [|split].
  - intros Heq k Hk. apply Hprefix. lia.
  - intros Hlt i Hi. apply (copyOf_intro _ _ _ _ _ Hout); [lia|].
    apply alternate_lookup_tail_l; lia.
  - intros Hlt i Hi. apply (copyOf_intro _ _ _ _ _ Hout); [lia|].
    apply alternate_lookup_tail_r; lia.
Qed.

(** C2, as the code has it.  A successful merge of [A] (a pages) and [B]
    (b pages) appends exactly a + b pages, the copies of a rearrangement of
    all the pages of [A] and [B].  The page count of the saved artifact,
    which is the count the handler stores in the result metadata, is
    a + b when at least one source has a page, and 1 when neither has:
    [save] adds a blank page to an output without pages before the count
    is read. *)
Theorem merge_page_count oddFile evenFile output url info s :
  merge lib oddFile evenFile = Some (output, url, info) ->
  exists A B,
    load lib (File.data oddFile) = Some A
    /\ load lib (File.data evenFile) = Some B
    /\ length output = length A + length B
    /\ (exists l, l ≡ₚ A ++ B /\ mapM (copy lib) l = Some output)
    /\ savedPageCount output
       = (if (length A + length B =? 0)%nat then 1 else length A + length B)
    /\ PdfInfo.pages info = savedPageCount output
    /\ (0 < length A + length B -> PdfInfo.pages info = length A + length B)
    /\ resultInfo (mergePdfs_settle lib oddFile evenFile s) = info.
Proof.
  intros H. pose proof H as Hm. apply merge_Some in H.
  destruct H as (A & B & mergedBytes & _ & _ & HA & HB & Hout & _ & _ & Hinfo).
  exists A, B. split; [done|]. split; [done|].
  pose proof (interleavePages_length _ _ _ Hout) as Hlen.
  split; [done|]. split; [|split; [|split; [|split]]].
  - exists (alternate A B). split; [apply alternate_perm|].
    by rewrite <- alternation_alternate, <- interleavePages_alternation.
  - unfold savedPageCount. by rewrite Hlen.
  - subst info. done.
  - intros Hpos. subst info. cbn [PdfInfo.pages]. unfold savedPageCount.
    rewrite Hlen. destruct (Nat.eqb_spec (length A + length B) 0); [lia|done].
  - unfold mergePdfs_settle. rewrite Hm. done.
Qed.

End Merger.

Lemma merge_alternates_witness :
  exists A B,
    load Fixture.lib (File.data Fixture.report) = Some A
    /\ load Fixture.lib (File.data Fixture.notes) = Some B
    /\ mapM (copy Fixture.lib) (alternation A B) = Some [1001; 1017; 1002; 1018; 1003]
    /\ length [1001; 1017; 1002; 1018; 1003] = length A + length B
    /\ (forall k, k < Nat.min (length A) (length B) ->
          copyOf Fixture.lib [1001; 1017; 1002; 1018; 1003] (2 * k) A k
          /\ copyOf Fixture.lib [1001; 1017; 1002; 1018; 1003] (2 * k + 1) B k)
    /\ (length A = length B -> forall k, k < length A ->
          copyOf Fixture.lib [1001; 1017; 1002; 1018; 1003] (2 * k) A k
          /\ copyOf Fixture.lib [1001; 1017; 1002; 1018; 1003] (2 * k + 1) B k)
    /\ (length B < length A -> forall i, 2 * length B <= i < length A + length B ->
          copyOf Fixture.lib [1001; 1017; 1002; 1018; 1003] i A (i - length B))
    /\ (length A < length B -> forall i, 2 * length A <= i < length A + length B ->
          copyOf Fixture.lib [1001; 1017; 1002; 1018; 1003] i B (i - length A)).
Proof.
  apply (merge_alternates Fixture.lib Fixture.report Fixture.notes
           [1001; 1017; 1002; 1018; 1003] "blob:0"
           (PdfInfo.mk "al-report.pdf" 5 6)).
  reflexivity.
Defined.

Lemma merge_page_count_witness :
  exists A B,
    load Fixture.lib (File.data Fixture.report) = Some A
    /\ load Fixture.lib (File.data Fixture.notes) = Some B
    /\ length [1001; 1017; 1002; 1018; 1003] = length A + length B
    /\ (exists l, l ≡ₚ A ++ B
                  /\ mapM (copy Fixture.lib) l = Some [1001; 1017; 1002; 1018; 1003])
    /\ savedPageCount [1001; 1017; 1002; 1018; 1003]
       = (if (length A + length B =? 0)%nat then 1 else length A + length B)
    /\ PdfInfo.pages (PdfInfo.mk "al-report.pdf" 5 6)
       = savedPageCount [1001; 1017; 1002; 1018; 1003]
    /\ (0 < length A + length B ->
        PdfInfo.pages (PdfInfo.mk "al-report.pdf" 5 6) = length A + length B)
    /\ resultInfo (mergePdfs_settle Fixture.lib Fixture.report Fixture.notes initial)
       = PdfInfo.mk "al-report.pdf" 5 6.
Proof.
  apply (merge_page_count Fixture.lib Fixture.report Fixture.notes
           [1001; 1017; 1002; 1018; 1003] "blob:0"
           (PdfInfo.mk "al-report.pdf" 5 6) initial).
  reflexivity.
Defined.


(** C2 as the specification states it fails: two PDFs without pages merge
    into an artifact of one page, the blank page [save] adds, and the
    result metadata say 1 page, not 0 + 0. *)
Lemma merge_page_count_blank :
  load Fixture.lib (File.data Fixture.blank) = Some []
  /\ merge Fixture.lib Fixture.blank Fixture.blank
     = Some ([], "blob:0", PdfInfo.mk "al-blank.pdf" 1 1)
  /\ resultInfo (mergePdfs_settle Fixture.lib Fixture.blank Fixture.blank initial)
     = PdfInfo.mk "al-blank.pdf" 1 1
  /\ PdfInfo.pages (PdfInfo.mk "al-blank.pdf" 1 1) <> length (@nil nat) + length (@nil nat).
Proof. repeat split. discriminate. Qed.

(** ** The handlers *)

Section Handlers.

Context {Page : Type} (lib : Collaborators Page).

Lemma inspectPdf_fails file setInfo s :
  loadFails lib file -> inspectPdf lib file setInfo s = None.
Proof.
  unfold loadFails, inspectPdf. intros H.
  destruct (readArrayBuffer lib file) as [bytes|]; simpl in *; [|done].
  by rewrite H.
Qed.

Lemma merge_loadFails_l oddFile evenFile :
  loadFails lib oddFile -> merge lib oddFile evenFile = None.
Proof.
  unfold loadFails, merge. intros H.
  destruct (readArrayBuffer lib oddFile) as [oddBytes|]; simpl in *; [|done].
  rewrite H. by destruct (readArrayBuffer lib evenFile).
Qed.

Lemma merge_loadFails_r oddFile evenFile :
  loadFails lib evenFile -> merge lib oddFile evenFile = None.
Proof.
  unfold loadFails, merge. intros H.
  destruct (readArrayBuffer lib oddFile) as [oddBytes|]; simpl in *; [|done].
  destruct (readArrayBuffer lib evenFile) as [evenBytes|]; simpl in *; [|done].
  rewrite H. by destruct (load lib oddBytes).
Qed.

(** What a merge that throws leaves behind: the status and the busy flag
    are written, nothing else is. *)
Lemma mergePdfs_settle_failure oddFile evenFile s :
  merge lib oddFile evenFile = None ->
  mergePdfs_settle lib oddFile evenFile s
  = setBusy false (setStatus Status.mergeFailed s).
Proof. unfold mergePdfs_settle. by intros ->. Qed.

Lemma mergePdfs_settle_success oddFile evenFile output url info s :
  merge lib oddFile evenFile = Some (output, url, info) ->
  mergePdfs_settle lib oddFile evenFile s
  = setBusy false (setStatus Status.done (setResultInfo info (setDownloadUrl url s))).
Proof. unfold mergePdfs_settle. by intros ->. Qed.

Lemma mergePdfs_sync_ready s :
  canMerge s = true ->
  exists a b, oddFile s = Some a /\ evenFile s = Some b
    /\ mergePdfs_sync s
       = (setDownloadUrl "" (setStatus Status.merging (setBusy true s)),
          Some (Merging a b)).
Proof.
  unfold canMerge, mergePdfs_sync. intros H.
  destruct (oddFile s) as [a|]; [|done].
  destruct (evenFile s) as [b|]; [|done]. eauto.
Qed.

Lemma canMerge_busy s : busy s = true -> canMerge s = false.
Proof. unfold canMerge. intros ->. by rewrite andb_false_r. Qed.

(** Choosing or clearing a source empties the artifact slot at once, link
    and metadata, before anything is read. *)
Lemma source_change_clears_artifact (file : option File.t) (s : State) :
  (downloadUrl (fst (handleOddChange_sync file s)) = ""
   /\ resultInfo (fst (handleOddChange_sync file s)) = PdfInfo.empty)
  /\ (downloadUrl (fst (handleEvenChange_sync file s)) = ""
      /\ resultInfo (fst (handleEvenChange_sync file s)) = PdfInfo.empty).
Proof. by destruct file. Qed.

(** Asking for a merge empties the link only: [mergePdfs] has no
    [setResultInfo] before its [try], and none in its [catch]. *)
Lemma merge_request_effects (s : State) a b :
  oddFile s = Some a -> evenFile s = Some b ->
  let s' := fst (mergePdfs_sync s) in
  busy s' = true /\ status s' = Status.merging /\ downloadUrl s' = ""
  /\ resultInfo s' = resultInfo s.
Proof. intros Ha Hb. unfold mergePdfs_sync. by rewrite Ha, Hb. Qed.

Lemma merge_failure_effects a b (s : State) :
  merge lib a b = None ->
  let s' := mergePdfs_settle lib a b s in
  status s' = Status.mergeFailed /\ busy s' = false
  /\ downloadUrl s' = downloadUrl s /\ resultInfo s' = resultInfo s
  /\ oddFile s' = oddFile s /\ evenFile s' = evenFile s
  /\ oddInfo s' = oddInfo s /\ evenInfo s' = evenInfo s.
Proof. intros H. cbv zeta. rewrite (mergePdfs_settle_failure _ _ _ H). repeat split. Qed.

(** C7. When the file chosen for one slot fails to load, the handler
    leaves the other slot's file and metadata as they were, resets the
    failing slot's metadata to the empty record, shows the message of that
    slot, and leaves no download link and no result metadata: both are
    cleared before the load is attempted and the failure path writes
    neither. *)
Theorem load_failure_isolated (file : File.t) (s s' : State) :
  loadFails lib file ->
  (let begun := fst (handleOddChange_sync (Some file) s) in
   let failed := handleOddChange_settle lib file s' in
   let after := handleOddChange lib (Some file) s in
   (downloadUrl begun = "" /\ resultInfo begun = PdfInfo.empty
    /\ evenFile begun = evenFile s /\ evenInfo begun = evenInfo s)
   /\ (evenFile failed = evenFile s' /\ evenInfo failed = evenInfo s'
       /\ oddInfo failed = PdfInfo.empty /\ status failed = Status.failedA
       /\ downloadUrl failed = downloadUrl s' /\ resultInfo failed = resultInfo s')
   /\ (evenFile after = evenFile s /\ evenInfo after = evenInfo s
       /\ oddInfo after = PdfInfo.empty /\ status after = Status.failedA
       /\ downloadUrl after = "" /\ resultInfo after = PdfInfo.empty
       /\ linkEnabled after = false /\ resultLine after = None))
  /\
  (let begun := fst (handleEvenChange_sync (Some file) s) in
   let failed := handleEvenChange_settle lib file s' in
   let after := handleEvenChange lib (Some file) s in
   (downloadUrl begun = "" /\ resultInfo begun = PdfInfo.empty
    /\ oddFile begun = oddFile s /\ oddInfo begun = oddInfo s)
   /\ (oddFile failed = oddFile s' /\ oddInfo failed = oddInfo s'
       /\ evenInfo failed = PdfInfo.empty /\ status failed = Status.failedB
       /\ downloadUrl failed = downloadUrl s' /\ resultInfo failed = resultInfo s')
   /\ (oddFile after = oddFile s /\ oddInfo after = oddInfo s
       /\ evenInfo after = PdfInfo.empty /\ status after = Status.failedB
       /\ downloadUrl after = "" /\ resultInfo after = PdfInfo.empty
       /\ linkEnabled after = false /\ resultLine after = None)).
Proof.
  intros Hfail.
  unfold handleOddChange, handleEvenChange, complete; simpl.
  unfold handleOddChange_settle, handleEvenChange_settle.
  rewrite !(inspectPdf_fails _ _ _ Hfail).
  repeat split.
Qed.

(** C3, as the code has it.  A file that fails to load stays the slot's
    selected file; the handler resets the slot's metadata and leaves the
    artifact slot empty.  The button is therefore enabled as soon as the
    other slot holds a file and no merge is running, whether that file
    loaded or not.  In any state in which the slot holds such a file and
    the button is enabled, a merge asked for is started: the busy flag is
    raised and the status says so.  It ends in the merge-failure status
    with the busy flag down and produces no output: the link is empty and
    the result metadata are not written, so they are what they were
    (empty, when the merge follows the failed choice directly).  On
    whatever state the merge settles, it writes the failure status and the
    busy flag and nothing else. *)
Theorem failed_load_keeps_file (file : File.t) (s : State) :
  loadFails lib file ->
  ((let chosen := handleOddChange lib (Some file) s in
    oddFile chosen = Some file /\ oddInfo chosen = PdfInfo.empty
    /\ downloadUrl chosen = "" /\ resultInfo chosen = PdfInfo.empty
    /\ canMerge chosen = bool_decide (is_Some (evenFile s)) && negb (busy s)
    /\ (canMerge chosen = true ->
        downloadUrl (mergePdfs lib chosen) = ""
        /\ resultInfo (mergePdfs lib chosen) = PdfInfo.empty))
   /\ (oddFile s = Some file -> canMerge s = true ->
       let started := fst (mergePdfs_sync s) in
       let ended := mergePdfs lib s in
       busy started = true /\ status started = Status.merging
       /\ status ended = Status.mergeFailed /\ busy ended = false
       /\ downloadUrl ended = "" /\ resultInfo ended = resultInfo s
       /\ oddFile ended = Some file /\ evenFile ended = evenFile s
       /\ oddInfo ended = oddInfo s /\ evenInfo ended = evenInfo s)
   /\ (forall other s',
         mergePdfs_settle lib file other s'
         = setBusy false (setStatus Status.mergeFailed s')))
  /\
  ((let chosen := handleEvenChange lib (Some file) s in
    evenFile chosen = Some file /\ evenInfo chosen = PdfInfo.empty
    /\ downloadUrl chosen = "" /\ resultInfo chosen = PdfInfo.empty
    /\ canMerge chosen = bool_decide (is_Some (oddFile s)) && negb (busy s)
    /\ (canMerge chosen = true ->
        downloadUrl (mergePdfs lib chosen) = ""
        /\ resultInfo (mergePdfs lib chosen) = PdfInfo.empty))
   /\ (evenFile s = Some file -> canMerge s = true ->
       let started := fst (mergePdfs_sync s) in
       let ended := mergePdfs lib s in
       busy started = true /\ status started = Status.merging
       /\ status ended = Status.mergeFailed /\ busy ended = false
       /\ downloadUrl ended = "" /\ resultInfo ended = resultInfo s
       /\ oddFile ended = oddFile s /\ evenFile ended = Some file
       /\ oddInfo ended = oddInfo s /\ evenInfo ended = evenInfo s)
   /\ (forall other s',
         mergePdfs_settle lib other file s'
         = setBusy false (setStatus Status.mergeFailed s'))).
Proof.
  intros Hfail.
  assert (HA : forall s0, oddFile s0 = Some file -> canMerge s0 = true ->
            fst (mergePdfs_sync s0)
            = setDownloadUrl "" (setStatus Status.merging (setBusy true s0))
            /\ mergePdfs lib s0
               = setBusy false (setStatus Status.mergeFailed
                   (setDownloadUrl "" (setStatus Status.merging (setBusy true s0))))).
  { intros s0 Hf Hready.
    destruct (mergePdfs_sync_ready _ Hready) as (a & b & Ha & Hb & Hsync).
    assert (a = file) as -> by congruence.
    unfold mergePdfs, complete. rewrite Hsync. cbn [settle fst].
    by rewrite (mergePdfs_settle_failure _ _ _ (merge_loadFails_l _ b Hfail)). }
  assert (HB : forall s0, evenFile s0 = Some file -> canMerge s0 = true ->
            fst (mergePdfs_sync s0)
            = setDownloadUrl "" (setStatus Status.merging (setBusy true s0))
            /\ mergePdfs lib s0
               = setBusy false (setStatus Status.mergeFailed
                   (setDownloadUrl "" (setStatus Status.merging (setBusy true s0))))).
  { intros s0 Hf Hready.
    destruct (mergePdfs_sync_ready _ Hready) as (a & b & Ha & Hb & Hsync).
    assert (b = file) as -> by congruence.
    unfold mergePdfs, complete. rewrite Hsync. cbn [settle fst].
    by rewrite (mergePdfs_settle_failure _ _ _ (merge_loadFails_r a _ Hfail)). }
  split; (split; [|split]).
  - unfold handleOddChange, complete. cbn [handleOddChange_sync settle].
    unfold handleOddChange_settle. rewrite (inspectPdf_fails _ _ _ Hfail).
    split; [done|]. split; [done|]. split; [done|]. split; [done|]. split; [done|].
    intros Hready. edestruct HA as [_ Hm]; [|exact Hready|by rewrite Hm]. reflexivity.
  - intros Hf Hready. destruct (HA _ Hf Hready) as [-> ->].
    cbn. by rewrite Hf.
  - intros other s'. apply mergePdfs_settle_failure. by apply merge_loadFails_l.
  - unfold handleEvenChange, complete. cbn [handleEvenChange_sync settle].
    unfold handleEvenChange_settle. rewrite (inspectPdf_fails _ _ _ Hfail).
    split; [done|]. split; [done|]. split; [done|]. split; [done|].
    split; [unfold canMerge; cbn; by rewrite andb_true_r|].
    intros Hready. edestruct HB as [_ Hm]; [|exact Hready|by rewrite Hm]. reflexivity.
  - intros Hf Hready. destruct (HB _ Hf Hready) as [-> ->].
    cbn. by rewrite Hf.
  - intros other s'. apply mergePdfs_settle_failure. by apply merge_loadFails_r.
Qed.

End Handlers.

(** ** The event loop *)

Section EventLoop.

Context {Page : Type} (lib : Collaborators Page).

Lemma inspectPdf_Some file setInfo s s' :
  inspectPdf lib file setInfo s = Some s' -> exists info, s' = setInfo info s.
Proof.
  unfold inspectPdf. intros H.
  destruct (readArrayBuffer lib file) as [bytes|]; simpl in H; [|done].
  destruct (load lib bytes) as [pdf|]; simpl in H; [|done].
  injection H as <-. eauto.
Qed.

Lemma handleOddChange_settle_busy file s :
  busy (handleOddChange_settle lib file s) = busy s.
Proof.
  unfold handleOddChange_settle.
  destruct (inspectPdf lib file setOddInfo s) as [s'|] eqn:H; [|done].
  apply inspectPdf_Some in H as [info ->]. done.
Qed.

Lemma handleEvenChange_settle_busy file s :
  busy (handleEvenChange_settle lib file s) = busy s.
Proof.
  unfold handleEvenChange_settle.
  destruct (inspectPdf lib file setEvenInfo s) as [s'|] eqn:H; [|done].
  apply inspectPdf_Some in H as [info ->]. done.
Qed.

Lemma mergePdfs_settle_busy a b s : busy (mergePdfs_settle lib a b s) = false.
Proof. unfold mergePdfs_settle. by destruct (merge lib a b) as [[[? ?] ?]|]. Qed.

Lemma mergePdfs_settle_canMerge a b s :
  canMerge (mergePdfs_settle lib a b s)
  = bool_decide (is_Some (oddFile s)) && bool_decide (is_Some (evenFile s)).
Proof.
  unfold mergePdfs_settle, canMerge.
  destruct (merge lib a b) as [[[? ?] ?]|]; simpl; by rewrite andb_true_r.
Qed.

Lemma filter_delete (l : list Task) n t :
  l !! n = Some t ->
  length (List.filter isMerging l)
  = (if isMerging t then 1 else 0) + length (List.filter isMerging (delete n l)).
Proof.
  intros H. rewrite <- (take_drop_middle l n t H) at 1.
  rewrite delete_take_drop, !List.filter_app, !length_app. simpl.
  destruct (isMerging t); simpl; lia.
Qed.

Lemma run_snoc es e : run lib (es ++ [e]) = step lib (run lib es) e.
Proof. unfold run. by rewrite fold_left_app. Qed.

Lemma park_inFlight σ r :
  inFlight (park σ r) = inFlight σ + length (List.filter isMerging (option_list (snd r))).
Proof. unfold inFlight, park. simpl. by rewrite List.filter_app, length_app. Qed.

Lemma step_consistent σ e : consistent σ -> consistent (step lib σ e).
Proof.
  unfold consistent. intros Hc. destruct e as [file|file| |n]; simpl.
  - rewrite park_inFlight. destruct file; simpl; rewrite Hc; lia.
  - rewrite park_inFlight. destruct file; simpl; rewrite Hc; lia.
  - destruct (canMerge (ui σ)) eqn:Hready; [|done].
    destruct (mergePdfs_sync_ready _ Hready) as (a & b & _ & _ & ->).
    rewrite park_inFlight. simpl. rewrite Hc.
    unfold canMerge in Hready. destruct (busy (ui σ)); [|done].
    by rewrite andb_false_r in Hready.
  - destruct (pending σ !! n) as [t|] eqn:Ht; [|done].
    unfold inFlight in *. cbn [ui pending].
    rewrite (filter_delete _ _ _ Ht) in Hc.
    destruct t as [f|f|a b]; cbn [settle isMerging] in *.
    + by rewrite handleOddChange_settle_busy.
    + by rewrite handleEvenChange_settle_busy.
    + rewrite mergePdfs_settle_busy. destruct (busy (ui σ)); lia.
Qed.

Lemma run_consistent es : consistent (run lib es).
Proof.
  induction es as [|e es IH] using rev_ind; [done|].
  rewrite run_snoc. by apply step_consistent.
Qed.

Lemma inFlight_lookup σ n a b :
  pending σ !! n = Some (Merging a b) -> 1 <= inFlight σ.
Proof.
  intros H. unfold inFlight. rewrite (filter_delete _ _ _ H). simpl. lia.
Qed.

Lemma inFlight_pos σ :
  1 <= inFlight σ -> exists n a b, pending σ !! n = Some (Merging a b).
Proof.
  unfold inFlight. induction (pending σ) as [|t l IH]; simpl; [lia|].
  destruct t as [f|f|a b]; simpl; intros H.
  - destruct (IH H) as (n & a & b & Hn). by exists (S n), a, b.
  - destruct (IH H) as (n & a & b & Hn). by exists (S n), a, b.
  - by exists 0, a, b.
Qed.

(** C5. At every point of every run of the component at most one merge
    is in flight, and the busy flag is up exactly while one is.  While it
    is up a press of the button does nothing at all: the state is the same
    and nothing is parked, because the button is disabled through
    [canMerge].  The flag goes down when the merge in flight settles, in
    success or in failure, and no merge is in flight then. *)
Theorem merge_exclusive (es : list Event) :
  let σ := run lib es in
  inFlight σ <= 1
  /\ (busy (ui σ) = true <-> exists n a b, pending σ !! n = Some (Merging a b))
  /\ (busy (ui σ) = true -> canMerge (ui σ) = false /\ step lib σ ClickMerge = σ)
  /\ (forall n a b, pending σ !! n = Some (Merging a b) ->
        let σ' := step lib σ (Settle n) in
        busy (ui σ') = false /\ inFlight σ' = 0).
Proof.
  intros σ. pose proof (run_consistent es) as Hc. fold σ in Hc.
  unfold consistent in Hc.
  split; [destruct (busy (ui σ)); lia|]. split; [|split].
  - split.
    + intros Hb. rewrite Hb in Hc. apply inFlight_pos. lia.
    + intros (n & a & b & Hn). apply inFlight_lookup in Hn.
      destruct (busy (ui σ)); [done|lia].
  - intros Hb. pose proof (canMerge_busy _ Hb) as Hready.
    split; [done|]. simpl. by rewrite Hready.
  - intros n a b Hn σ'.
    pose proof (step_consistent σ (Settle n) Hc) as Hc'. fold σ' in Hc'.
    unfold consistent in Hc'.
    assert (Hb : busy (ui σ') = false).
    { unfold σ'. cbn [step]. rewrite Hn. cbn [ui settle]. apply mergePdfs_settle_busy. }
    rewrite Hb in Hc'. done.
Qed.

(** C10. [mergePdfs] raises the busy flag when it starts and lowers it
    on its way out, whether the merge succeeded or threw, on whatever the
    state is by then; so the button is enabled again whenever both slots
    still hold a file.  In every run a raised flag belongs to a merge in
    flight, whose settling lowers it. *)
Theorem busy_always_reset :
  (forall s a b, oddFile s = Some a -> evenFile s = Some b ->
     busy (fst (mergePdfs_sync s)) = true
     /\ snd (mergePdfs_sync s) = Some (Merging a b))
  /\ (forall a b s,
        busy (mergePdfs_settle lib a b s) = false
        /\ canMerge (mergePdfs_settle lib a b s)
           = bool_decide (is_Some (oddFile s)) && bool_decide (is_Some (evenFile s)))
  /\ (forall s, canMerge s = true ->
        busy (mergePdfs lib s) = false /\ canMerge (mergePdfs lib s) = true)
  /\ (forall es, busy (ui (run lib es)) = true ->
        exists n a b,
          pending (run lib es) !! n = Some (Merging a b)
          /\ busy (ui (step lib (run lib es) (Settle n))) = false).
Proof.
  split; [|split; [|split]].
  - intros s a b Ha Hb. unfold mergePdfs_sync. by rewrite Ha, Hb.
  - intros a b s. split; [apply mergePdfs_settle_busy|apply mergePdfs_settle_canMerge].
  - intros s Hready.
    destruct (mergePdfs_sync_ready _ Hready) as (a & b & Ha & Hb & Hsync).
    unfold mergePdfs, complete. rewrite Hsync. cbn [settle].
    split; [apply mergePdfs_settle_busy|].
    rewrite mergePdfs_settle_canMerge. simpl. by rewrite Ha, Hb.
  - intros es Hb.
    pose proof (run_consistent es) as Hc. unfold consistent in Hc. rewrite Hb in Hc.
    destruct (inFlight_pos (run lib es)) as (n & a & b & Hn); [lia|].
    exists n, a, b. split; [done|]. cbn [step]. rewrite Hn. cbn [ui settle].
    apply mergePdfs_settle_busy.
Qed.

End EventLoop.

(** ** The name of the artifact *)

Section Naming.

Context {Page : Type} (lib : Collaborators Page).

Lemma mergedName_cases (oddFile : File.t) :
  (File.name oddFile = "" /\ mergedName oddFile = "al-interleaved.pdf")
  \/ (File.name oddFile <> "" /\ mergedName oddFile = ("al-" ++ File.name oddFile)%string).
Proof.
  unfold mergedName.
  destruct (String.eqb_spec (File.name oddFile) "") as [->|Hne]; auto.
Qed.

(** C6.  The name of a successful merge is ["al-"] followed by the name
    of source A's file when that name is not empty, and the literal
    ["al-interleaved.pdf"] when it is empty: the literal base name stands
    in exactly when A's name is empty, so the name is ["al-"] followed by
    A's name exactly when A has one.  Source B's file has no part in it. *)
Theorem merge_name oddFile evenFile output url info :
  merge lib oddFile evenFile = Some (output, url, info) ->
  (File.name oddFile <> "" ->
     PdfInfo.name info = ("al-" ++ File.name oddFile)%string)
  /\ (File.name oddFile = "" -> PdfInfo.name info = "al-interleaved.pdf")
  /\ (PdfInfo.name info = ("al-" ++ File.name oddFile)%string
      <-> File.name oddFile <> "")
  /\ (forall evenFile' output' url' info',
        merge lib oddFile evenFile' = Some (output', url', info') ->
        PdfInfo.name info' = PdfInfo.name info).
Proof.
  intros H. apply merge_Some in H.
  destruct H as (A & B & mergedBytes & _ & _ & _ & _ & _ & _ & _ & ->). simpl.
  split; [|split; [|split]].
  - intros Hne. by destruct (mergedName_cases oddFile) as [[? _]|[_ ?]].
  - intros He. destruct (mergedName_cases oddFile) as [[_ ?]|[? _]]; done.
  - destruct (mergedName_cases oddFile) as [[He ->]|[Hne ->]].
    + rewrite He. split; [discriminate|done].
    + done.
  - intros evenFile' output' url' info' H'. apply merge_Some in H'.
    by destruct H' as (A' & B' & mergedBytes' & _ & _ & _ & _ & _ & _ & _ & ->).
Qed.

End Naming.

(** ** The component at work on concrete files *)

Example interleave_3_2 :
  interleavePages Fixture.lib [1; 2; 3] [17; 18] = Some [1001; 1017; 1002; 1018; 1003].
Proof. reflexivity. Qed.

Example interleave_2_2 :
  interleavePages Fixture.lib [1; 2] [17; 18] = Some [1001; 1017; 1002; 1018].
Proof. reflexivity. Qed.

Example interleave_0_2 : interleavePages Fixture.lib [] [17; 18] = Some [1017; 1018].
Proof. reflexivity. Qed.

Example interleave_0_0 : interleavePages Fixture.lib [] [] = Some [].
Proof. reflexivity. Qed.

Example interleave_copy_throws : interleavePages Fixture.lib [1; 255; 3] [17] = None.
Proof. reflexivity. Qed.

Example merge_save_throws : merge Fixture.lib Fixture.book Fixture.book = None.
Proof. reflexivity. Qed.

Example merge_read_throws :
  merge Fixture.lib (Fixture.file "gone.pdf" [Byte.x25; Byte.x01]) Fixture.notes = None.
Proof. reflexivity. Qed.

Example merged_state :
  Fixture.merged
  = {| oddFile := Some Fixture.report; evenFile := Some Fixture.notes;
       oddInfo := PdfInfo.mk "report.pdf" 3 4; evenInfo := PdfInfo.mk "notes.pdf" 2 3;
       status := Status.done; busy := false;
       downloadUrl := "blob:0"; resultInfo := PdfInfo.mk "al-report.pdf" 5 6 |}.
Proof. reflexivity. Qed.

Example merged_by_events :
  run Fixture.lib (Fixture.choose ++ [ClickMerge; Settle 0])
  = {| ui := Fixture.merged; pending := [] |}.
Proof. reflexivity. Qed.

Lemma load_failure_isolated_witness :
  loadFails Fixture.lib Fixture.letter
  /\ handleOddChange Fixture.lib (Some Fixture.letter) Fixture.merged
     = {| oddFile := Some Fixture.letter; evenFile := Some Fixture.notes;
          oddInfo := PdfInfo.empty; evenInfo := PdfInfo.mk "notes.pdf" 2 3;
          status := Status.failedA; busy := false;
          downloadUrl := ""; resultInfo := PdfInfo.empty |}
  /\ resultLine (handleOddChange Fixture.lib (Some Fixture.letter) Fixture.merged) = None
  /\ evenInfo (handleOddChange_settle Fixture.lib Fixture.letter Fixture.merged)
     = evenInfo Fixture.merged.
Proof.
  destruct (load_failure_isolated Fixture.lib Fixture.letter Fixture.merged
              Fixture.merged) as [(_ & Hfailed & Hafter) _]; [reflexivity|].
  split; [reflexivity|]. split; [reflexivity|].
  split; [apply Hafter|apply Hfailed].
Defined.

Lemma failed_load_keeps_file_witness :
  loadFails Fixture.lib Fixture.letter
  /\ canMerge (handleOddChange Fixture.lib (Some Fixture.letter)
                 (handleEvenChange Fixture.lib (Some Fixture.notes) initial)) = true
  /\ resultInfo (mergePdfs Fixture.lib
                   (handleOddChange Fixture.lib (Some Fixture.letter)
                      (handleEvenChange Fixture.lib (Some Fixture.notes) initial)))
     = PdfInfo.empty
  /\ mergePdfs_settle Fixture.lib Fixture.letter Fixture.notes Fixture.merged
     = setBusy false (setStatus Status.mergeFailed Fixture.merged).
Proof.
  destruct (failed_load_keeps_file Fixture.lib Fixture.letter
              (handleEvenChange Fixture.lib (Some Fixture.notes) initial))
    as [((_ & _ & _ & _ & Hready & Hmerge) & _ & Hsettle) _]; [reflexivity|].
  split; [reflexivity|]. split; [exact Hready|].
  split; [apply (Hmerge Hready)|apply Hsettle].
Defined.

(** A merge on a slot whose file failed to load leaves the result metadata
    as they were, here those of a merge that settled after the choice. *)
Example failed_slot_after_swap :
  let σ := run Fixture.lib
             (Fixture.choose ++ [ClickMerge; ChangeOdd (Some Fixture.letter);
                                 Settle 1; Settle 0; ClickMerge; Settle 0]) in
  oddFile (ui σ) = Some Fixture.letter
  /\ status (ui σ) = Status.mergeFailed /\ busy (ui σ) = false
  /\ downloadUrl (ui σ) = ""
  /\ resultInfo (ui σ) = PdfInfo.mk "al-report.pdf" 5 6.
Proof. repeat split. Qed.

(** C3 as the specification states it fails: a text file chosen for slot A
    fails to load, and yet with a file in slot B the button is enabled and
    a press starts a merge. *)
Lemma failed_slot_not_rejected :
  loadFails Fixture.lib Fixture.letter
  /\ oddFile (ui (run Fixture.lib Fixture.wrong)) = Some Fixture.letter
  /\ status (ui (run Fixture.lib Fixture.wrong)) = Status.failedA
  /\ canMerge (ui (run Fixture.lib Fixture.wrong)) = true
  /\ step Fixture.lib (run Fixture.lib Fixture.wrong) ClickMerge
     <> run Fixture.lib Fixture.wrong
  /\ step Fixture.lib (run Fixture.lib Fixture.wrong) ClickMerge
     = {| ui := setDownloadUrl "" (setStatus Status.merging
                  (setBusy true (ui (run Fixture.lib Fixture.wrong))));
          pending := [Merging Fixture.letter Fixture.notes] |}.
Proof.
  repeat split; try reflexivity.
  intros H. apply (f_equal (fun σ => busy (ui σ))) in H. discriminate H.
Qed.

Lemma merge_name_witness :
  (File.name Fixture.report <> "" ->
     PdfInfo.name (PdfInfo.mk "al-report.pdf" 5 6)
     = ("al-" ++ File.name Fixture.report)%string)
  /\ (PdfInfo.name (PdfInfo.mk "al-report.pdf" 5 6)
      = ("al-" ++ File.name Fixture.report)%string
      <-> File.name Fixture.report <> "").
Proof.
  pose proof (merge_name Fixture.lib Fixture.report Fixture.notes
                [1001; 1017; 1002; 1018; 1003] "blob:0"
                (PdfInfo.mk "al-report.pdf" 5 6) eq_refl) as (H1 & _ & H3 & _).
  split; [exact H1|exact H3].
Defined.

Example merge_name_fallback :
  merge Fixture.lib Fixture.anonymous Fixture.notes
  = Some ([1001; 1017; 1018], "blob:0", PdfInfo.mk "al-interleaved.pdf" 3 4).
Proof. reflexivity. Qed.

(** C4 on the code.  The first merge, of [report] and [notes], is in flight
    when source A is replaced by [broken]; it settles and shows its
    artifact; the merge asked for next throws while copying [broken]'s
    page.  The failure status is shown, the busy flag is down, the download
    link is gone and both slots are as they were, but the result metadata
    is still that of the first merge, and the result panel prints it. *)
Theorem failed_merge_keeps_result_metadata :
  let σ := run Fixture.lib Fixture.swap in
  merge Fixture.lib Fixture.broken Fixture.notes = None
  /\ (load Fixture.lib (File.data Fixture.broken) = Some [255]
      /\ copyPages Fixture.lib [255] 0 = None)
  /\ σ = {| ui := {| oddFile := Some Fixture.broken; evenFile := Some Fixture.notes;
                     oddInfo := PdfInfo.mk "broken.pdf" 1 2;
                     evenInfo := PdfInfo.mk "notes.pdf" 2 3;
                     status := Status.mergeFailed; busy := false;
                     downloadUrl := "";
                     resultInfo := PdfInfo.mk "al-report.pdf" 5 6 |};
            pending := [] |}
  /\ resultInfo (ui σ) <> PdfInfo.empty
  /\ resultLine (ui σ) = Some "al-report.pdf ・ 5ページ ・ 6 B".
Proof.
  repeat split; try reflexivity. discriminate.
Qed.

(** C8 on the code.  After a merge of [report] and [notes] the button is
    pressed again.  Before the outcome of the new merge is known the
    download link is cleared, but the result metadata is not: it is that of
    the merge before, and the result panel prints it. *)
Theorem merge_request_keeps_result_metadata :
  let σ := run Fixture.lib Fixture.again in
  σ = {| ui := {| oddFile := Some Fixture.report; evenFile := Some Fixture.notes;
                  oddInfo := PdfInfo.mk "report.pdf" 3 4;
                  evenInfo := PdfInfo.mk "notes.pdf" 2 3;
                  status := Status.merging; busy := true;
                  downloadUrl := "";
                  resultInfo := PdfInfo.mk "al-report.pdf" 5 6 |};
         pending := [Merging Fixture.report Fixture.notes] |}
  /\ resultInfo (ui σ) <> PdfInfo.empty
  /\ resultLine (ui σ) = Some "al-report.pdf ・ 5ページ ・ 6 B".
Proof.
  repeat split; try reflexivity. discriminate.
Qed.

(** * More properties of the code *)

(** ** [formatBytes] *)

Lemma scale_fuel fuel v idx :
  (3 - idx <= fuel)%nat -> scale fuel v idx = scale (3 - idx) v idx.
Proof.
  revert v idx. induction fuel as [|fuel IH]; intros v idx Hfuel.
  - by replace (3 - idx)%nat with 0%nat by lia.
  - cbn [scale]. change (length units - 1)%nat with 3%nat.
    destruct (Qle_bool 1024 v) eqn:Hv; cbn [andb].
    + destruct (idx <? 3)%nat eqn:Hlt.
      * apply Nat.ltb_lt in Hlt. rewrite IH by lia.
        replace (3 - idx)%nat with (S (3 - (idx + 1))) by lia.
        cbn [scale]. change (length units - 1)%nat with 3%nat.
        rewrite Hv. cbn [andb].
        by rewrite (proj2 (Nat.ltb_lt idx 3) Hlt).
      * apply Nat.ltb_ge in Hlt. by replace (3 - idx)%nat with 0%nat by lia.
    + destruct (3 - idx)%nat; [done|]. cbn [scale]. by rewrite Hv.
Qed.

(** X1.  The [while] loop of [formatBytes] has run to its own exit after three
    rounds: more rounds change nothing, and the value and index it returns
    falsify the loop condition. *)
Theorem scale_terminates (extra : nat) (value : Q) :
  scale (3 + extra) value 0 = scale 3 value 0
  /\ Qle_bool 1024 (fst (scale 3 value 0))
     && (snd (scale 3 value 0) <? length units - 1)%nat = false.
Proof.
  split; [apply (scale_fuel (3 + extra) value 0); lia|].
  destruct (scale 3 value 0) as [v' k] eqn:Hs. cbn [fst snd].
  apply scale_spec in Hs; [|lia|lia].
  destruct Hs as (Hk & _ & _ & Hexit).
  change (length units - 1)%nat with 3%nat.
  destruct (k <? 3)%nat eqn:Hlt; [|by rewrite andb_false_r].
  apply Nat.ltb_lt in Hlt. rewrite andb_true_r.
  destruct (Qle_bool 1024 v') eqn:Hv; [|done].
  apply Qle_bool_iff in Hv. exfalso.
  apply (Qlt_not_le _ _ (Hexit Hlt)). exact Hv.
Qed.

Lemma Qpower_1024 j : (1024 ^ Z.of_nat j == inject_Z (1024 ^ Z.of_nat j))%Q.
Proof. symmetry. apply (Zpower_Qpower 1024). lia. Qed.

Lemma Qpower_1024_pos j : (0 < 1024 ^ Z.of_nat j)%Q.
Proof. apply Qpower_0_lt. reflexivity. Qed.

Lemma after_divisions_ge b j :
  (1024 <= after_divisions b j)%Q <-> (1024 * 1024 ^ Z.of_nat j <= Z.of_N b)%Z.
Proof.
  unfold after_divisions, shrink.
  pose proof (Qpower_1024_pos j) as Hpos.
  rewrite Zle_Qle, inject_Z_mult, <- Qpower_1024.
  change (inject_Z 1024) with 1024%Q.
  split; intros H.
  - apply (Qmult_le_compat_r _ _ (1024 ^ Z.of_nat j)) in H; [|by apply Qlt_le_weak].
    eapply Qle_trans; [exact H|]. apply Qle_lteq. right. field.
    intros Hz. rewrite Hz in Hpos. by apply Qlt_irrefl in Hpos.
  - by apply Qle_shift_div_l.
Qed.

Lemma after_divisions_lt b j :
  (after_divisions b j < 1024)%Q <-> (Z.of_N b < 1024 * 1024 ^ Z.of_nat j)%Z.
Proof.
  split; intros H.
  - apply Z.nle_gt. intros Hle. apply after_divisions_ge in Hle.
    by apply (Qlt_not_le _ _ H).
  - apply Qnot_le_lt. intros Hle. apply after_divisions_ge in Hle. lia.
Qed.

Lemma divisions_unitIndex b : divisions b (unitIndex b).
Proof.
  unfold unitIndex, divisions.
  destruct (N.ltb_spec b 1024) as [H0|H0];
    [|destruct (N.ltb_spec b (1024 * 1024)) as [H1|H1];
      [|destruct (N.ltb_spec b (1024 * 1024 * 1024)) as [H2|H2]]].
  - split; [lia|]. split; [intros j Hj; lia|].
    intros _. apply after_divisions_lt. simpl. lia.
  - split; [lia|]. split.
    + intros [|j] Hj; [|lia]. apply after_divisions_ge. simpl. lia.
    + intros _. apply after_divisions_lt. simpl. lia.
  - split; [lia|]. split.
    + intros [|[|j]] Hj; try lia; apply after_divisions_ge; simpl; lia.
    + intros _. apply after_divisions_lt. simpl. lia.
  - split; [lia|]. split; [|lia].
    intros [|[|[|j]]] Hj; try lia; apply after_divisions_ge; simpl; lia.
Qed.

Lemma formatBytes_scale b :
  exists value idx,
    scale 3 (inject_Z (Z.of_N b)) 0 = (value, idx)
    /\ divisions b idx /\ (value == after_divisions b idx)%Q
    /\ formatBytes (Some b)
       = (Js.toFixed value (decimals value idx) ++ " " ++ nth idx units "undefined")%string.
Proof.
  destruct (scale 3 (inject_Z (Z.of_N b)) 0) as [value idx] eqn:Hs.
  exists value, idx. split; [done|].
  pose proof Hs as Hspec. apply scale_spec in Hspec; [|lia|lia].
  rewrite Nat.sub_0_r in Hspec. destruct Hspec as (Hk & Hv & Hall & Hexit).
  split; [|split; [exact Hv|]].
  - split; [lia|]. split; [exact Hall|].
    intros Hlt. unfold after_divisions. rewrite <- Hv. auto.
  - unfold formatBytes.
    replace (Js.not (Some b) && Js.strict_ne_0 (Some b)) with false
      by (simpl; by destruct (b =? 0)%N).
    change (length units - 1)%nat with 3%nat.
    change (default 0%N (Some b)) with b. by rewrite Hs.
Qed.

(** X2.  The unit [formatBytes] prints is decided by fixed thresholds: B below
    1024, KB below 1024², MB below 1024³, and GB from there on, however
    large the count; the number printed is the count divided by the
    matching power of 1024. *)
Theorem formatBytes_by_threshold (b : N) :
  formatBytes (Some b)
  = (Js.toFixed (after_divisions b (unitIndex b))
       (decimals (after_divisions b (unitIndex b)) (unitIndex b))
     ++ " " ++ nth (unitIndex b) units "")%string.
Proof.
  destruct (formatBytes_scale b) as (value & idx & _ & Hdiv & Hv & ->).
  rewrite (divisions_unique b _ _ (divisions_unitIndex b) Hdiv).
  rewrite (toFixed_Qeq _ _ _ Hv), (decimals_Qeq _ _ _ Hv).
  destruct Hdiv as (Hk & _). by destruct idx as [|[|[|[|idx]]]]; [..|lia].
Qed.

Lemma Qfloor_half z : Qfloor (inject_Z z * inject_Z 1 + (1 # 2)) = z.
Proof.
  unfold Qfloor, inject_Z, Qmult, Qplus. cbn [Qnum Qden].
  replace (z * 1 * Z.pos 2 + 1 * Z.pos (1 * 1))%Z with (1 + z * 2)%Z by lia.
  change (Z.pos (1 * 1 * 2)) with 2%Z.
  rewrite Z.div_add by lia. reflexivity.
Qed.

(** X3.  A count below 1024 is printed in full, as the integer it is, followed
    by the unit B: no rounding and no decimal point. *)
Theorem formatBytes_small (b : N) :
  (b < 1024)%N ->
  formatBytes (Some b) = (Js.digits (Z.of_N b) ++ " B")%string.
Proof.
  intros Hb. destruct (formatBytes_scale b) as (value & idx & Hs & _ & _ & ->).
  cbn [scale] in Hs.
  assert (Hv : Qle_bool 1024 (inject_Z (Z.of_N b)) = false).
  { destruct (Qle_bool 1024 (inject_Z (Z.of_N b))) eqn:H; [|done].
    apply Qle_bool_iff in H. rewrite <- (Zle_Qle 1024) in H. lia. }
  rewrite Hv in Hs. cbn [andb] in Hs. injection Hs as <- <-.
  unfold decimals. rewrite orb_true_r.
  unfold Js.toFixed. change (10 ^ Z.of_nat 0)%Z with 1%Z.
  rewrite Qfloor_half. cbn [Nat.eqb nth units].
  destruct (Z.eqb_spec (Z.of_N b) 0) as [->|_]; reflexivity.
Qed.

Lemma formatBytes_small_witness : formatBytes (Some 1000%N) = "1000 B".
Proof. apply (formatBytes_small 1000). reflexivity. Defined.

(** ** The interleaving loop and [merge] *)

Section MoreMerger.

Context {Page : Type} (lib : Collaborators Page).
Implicit Types A B output : list Page.

(** X4.  With a source of no pages the loop puts out the copies of the other
    source's pages, in their order, whichever side is the empty one. *)
Theorem interleave_one_empty A :
  interleavePages lib [] A = mapM (copy lib) A
  /\ interleavePages lib A [] = mapM (copy lib) A.
Proof.
  rewrite !interleavePages_alternation, !alternation_alternate.
  by rewrite alternate_nil_r.
Qed.

(** X5.  The loop throws exactly when the copy of some page of either source
    throws: one page that cannot be copied, anywhere, and there is no
    output at all. *)
Theorem interleave_fails_iff A B :
  interleavePages lib A B = None <-> exists p, p ∈ A ++ B /\ copy lib p = None.
Proof.
  rewrite interleavePages_alternation, alternation_alternate, mapM_None, Exists_exists.
  split; intros (p & Hin & Hp); exists p; split; try done.
  - by rewrite <- (alternate_perm A B).
  - by rewrite (alternate_perm A B).
Qed.

Lemma mapM_alternate A B :
  mapM (copy lib) (alternate A B)
  = outA ← mapM (copy lib) A; outB ← mapM (copy lib) B; Some (alternate outA outB).
Proof.
  revert B. induction A as [|a A IH]; intros [|b B].
  - done.
  - cbn [alternate]. change (mapM (copy lib) []) with (Some (@nil Page)).
    by destruct (mapM (copy lib) (b :: B)).
  - cbn [alternate]. change (mapM (copy lib) []) with (Some (@nil Page)).
    destruct (mapM (copy lib) (a :: A)) as [outA|]; [|done].
    simpl. by rewrite alternate_nil_r.
  - cbn [alternate]. simpl. rewrite IH.
    destruct (copy lib a) as [a'|]; simpl; [|done].
    destruct (copy lib b) as [b'|]; simpl.
    + destruct (mapM (copy lib) A) as [outA|]; simpl; [|done].
      by destruct (mapM (copy lib) B).
    + by destruct (mapM (copy lib) A).
Qed.

Lemma alternate_sublist_l A B : A `sublist_of` alternate A B.
Proof.
  revert B. induction A as [|a A IH]; intros [|b B]; cbn [alternate].
  - done.
  - apply sublist_nil_l.
  - done.
  - apply sublist_skip, sublist_cons, IH.
Qed.

Lemma alternate_sublist_r A B : B `sublist_of` alternate A B.
Proof.
  revert B. induction A as [|a A IH]; intros [|b B]; cbn [alternate].
  - done.
  - done.
  - apply sublist_nil_l.
  - apply sublist_cons, sublist_skip, IH.
Qed.

(** X6.  When the loop succeeds, its output is the alternation of the two
    copied documents: copying page by page while alternating gives what
    copying each source whole and alternating afterwards would.  So the
    copies of each source's pages keep their order in the output. *)
Theorem interleave_keeps_order A B output :
  interleavePages lib A B = Some output ->
  exists outA outB,
    mapM (copy lib) A = Some outA /\ mapM (copy lib) B = Some outB
    /\ output = alternate outA outB
    /\ outA `sublist_of` output /\ outB `sublist_of` output.
Proof.
  rewrite interleavePages_alternation, alternation_alternate, mapM_alternate.
  intros H.
  destruct (mapM (copy lib) A) as [outA|]; simpl in H; [|done].
  destruct (mapM (copy lib) B) as [outB|]; simpl in H; [|done].
  injection H as <-. exists outA, outB.
  repeat split; [apply alternate_sublist_l|apply alternate_sublist_r].
Qed.

(** X7.  [merge] succeeds exactly when both files are read, both parse, every
    page copy succeeds and the output is saved; any other way the [try]
    block of [mergePdfs] ends in its [catch]. *)
Theorem merge_succeeds_iff (a b : File.t) :
  is_Some (merge lib a b)
  <-> readerError lib a = false /\ readerError lib b = false
      /\ exists A B output,
           load lib (File.data a) = Some A /\ load lib (File.data b) = Some B
           /\ interleavePages lib A B = Some output
           /\ is_Some (save lib output).
Proof.
  split.
  - intros [[[output url] info] H]. apply merge_Some in H.
    destruct H as (A & B & mergedBytes & Ha & Hb & HA & HB & Hout & Hsave & _).
    split; [done|]. split; [done|]. exists A, B, output.
    rewrite Hsave. eauto.
  - intros (Ha & Hb & A & B & output & HA & HB & Hout & [mergedBytes Hsave]).
    unfold merge, readArrayBuffer. rewrite Ha, Hb. simpl.
    rewrite HA, HB. simpl. rewrite Hout. simpl. rewrite Hsave. simpl. eauto.
Qed.

(** X8.  A merge that succeeds writes the link, the metadata, the status and
    the busy flag, and nothing of the two source slots.  The link is live
    afterwards, with the object URL as its target and the merged name as
    its download name.  The page count stored is at least 1, so the result
    panel always prints the metadata line after a success; for an output
    the loop left without pages it says 1 page, the blank page [save]
    added. *)
Theorem merge_success_effects (a b : File.t) output url info (s : State) :
  merge lib a b = Some (output, url, info) ->
  let s' := mergePdfs_settle lib a b s in
  s' = {| oddFile := oddFile s; evenFile := evenFile s;
          oddInfo := oddInfo s; evenInfo := evenInfo s;
          status := Status.done; busy := false;
          downloadUrl := url; resultInfo := info |}
  /\ linkEnabled s' = true
  /\ href (render s') = url
  /\ download (render s') = mergedName a
  /\ 1 <= PdfInfo.pages info
  /\ resultMeta (render s') = metaLine info
  /\ (output = [] -> PdfInfo.pages info = 1)
  /\ (output <> [] -> PdfInfo.pages info = length output).
Proof.
  intros H s'. unfold s'. rewrite (mergePdfs_settle_success _ _ _ _ _ _ _ H).
  apply merge_Some in H.
  destruct H as (A & B & mergedBytes & _ & _ & _ & _ & _ & _ & -> & ->).
  split; [done|]. split; [done|]. split; [done|]. split; [done|].
  unfold render, setBusy, setStatus, setResultInfo, setDownloadUrl.
  cbn [resultMeta resultInfo PdfInfo.pages]. unfold savedPageCount.
  destruct output as [|p output]; cbn [length Nat.eqb].
  - split; [lia|]. split; [done|]. split; [done|]. intros Hne. by destruct Hne.
  - split; [lia|]. split; [done|]. split; [discriminate|done].
Qed.

End MoreMerger.

Lemma interleave_keeps_order_witness :
  exists outA outB,
    mapM (copy Fixture.lib) [1; 2; 3] = Some outA
    /\ mapM (copy Fixture.lib) [17; 18] = Some outB
    /\ [1001; 1017; 1002; 1018; 1003] = alternate outA outB
    /\ outA `sublist_of` [1001; 1017; 1002; 1018; 1003]
    /\ outB `sublist_of` [1001; 1017; 1002; 1018; 1003].
Proof.
  apply (interleave_keeps_order Fixture.lib [1; 2; 3] [17; 18]). reflexivity.
Defined.

Lemma merge_success_effects_witness :
  linkEnabled (mergePdfs_settle Fixture.lib Fixture.report Fixture.notes Fixture.loaded) = true
  /\ resultMeta (render (mergePdfs_settle Fixture.lib Fixture.report Fixture.notes
                           Fixture.loaded))
     = "al-report.pdf ・ 5ページ ・ 6 B".
Proof.
  destruct (merge_success_effects Fixture.lib Fixture.report Fixture.notes
              [1001; 1017; 1002; 1018; 1003] "blob:0"
              (PdfInfo.mk "al-report.pdf" 5 6) Fixture.loaded eq_refl)
    as (_ & Hlink & _ & _ & _ & Hmeta & _).
  split; [exact Hlink|exact Hmeta].
Defined.

Example merge_blank_line :
  resultMeta (render (mergePdfs_settle Fixture.lib Fixture.blank Fixture.blank initial))
  = "al-blank.pdf ・ 1ページ ・ 1 B".
Proof. reflexivity. Qed.

(** ** The handlers, one after another *)

Section MoreHandlers.

Context {Page : Type} (lib : Collaborators Page).

Lemma inspectPdf_loads file pdf setInfo s :
  readArrayBuffer lib file ≫= load lib = Some pdf ->
  inspectPdf lib file setInfo s
  = Some (setInfo (PdfInfo.mk (File.name file) (length pdf) (File.size file)) s).
Proof.
  unfold inspectPdf. intros H.
  destruct (readArrayBuffer lib file) as [bytes|]; simpl in *; [|done].
  by rewrite H.
Qed.

Lemma handleOddChange_loads (file : File.t) (pdf : list Page) (s : State) :
  readArrayBuffer lib file ≫= load lib = Some pdf ->
  handleOddChange lib (Some file) s
  = {| oddFile := Some file; evenFile := evenFile s;
       oddInfo := PdfInfo.mk (File.name file) (length pdf) (File.size file);
       evenInfo := evenInfo s;
       status := Status.selectTwo; busy := busy s;
       downloadUrl := ""; resultInfo := PdfInfo.empty |}.
Proof.
  intros H. unfold handleOddChange, complete. cbn [handleOddChange_sync settle].
  unfold handleOddChange_settle. by rewrite (inspectPdf_loads _ _ _ _ H).
Qed.

Lemma handleEvenChange_loads (file : File.t) (pdf : list Page) (s : State) :
  readArrayBuffer lib file ≫= load lib = Some pdf ->
  handleEvenChange lib (Some file) s
  = {| oddFile := oddFile s; evenFile := Some file;
       oddInfo := oddInfo s;
       evenInfo := PdfInfo.mk (File.name file) (length pdf) (File.size file);
       status := Status.selectTwo; busy := busy s;
       downloadUrl := ""; resultInfo := PdfInfo.empty |}.
Proof.
  intros H. unfold handleEvenChange, complete. cbn [handleEvenChange_sync settle].
  unfold handleEvenChange_settle. by rewrite (inspectPdf_loads _ _ _ _ H).
Qed.

(** X9.  A file that loads becomes the slot's file and the slot's metadata are
    its name, its number of pages and its size as the browser reports it;
    the status asks for two PDFs again; link and result metadata are
    empty; the other slot and the busy flag are as they were. *)
Theorem choose_loads (file : File.t) (pdf : list Page) (s : State) :
  readArrayBuffer lib file ≫= load lib = Some pdf ->
  handleOddChange lib (Some file) s
  = {| oddFile := Some file; evenFile := evenFile s;
       oddInfo := PdfInfo.mk (File.name file) (length pdf) (File.size file);
       evenInfo := evenInfo s;
       status := Status.selectTwo; busy := busy s;
       downloadUrl := ""; resultInfo := PdfInfo.empty |}
  /\ handleEvenChange lib (Some file) s
     = {| oddFile := oddFile s; evenFile := Some file;
          oddInfo := oddInfo s;
          evenInfo := PdfInfo.mk (File.name file) (length pdf) (File.size file);
          status := Status.selectTwo; busy := busy s;
          downloadUrl := ""; resultInfo := PdfInfo.empty |}.
Proof.
  intros H. split; [by apply handleOddChange_loads|by apply handleEvenChange_loads].
Qed.

(** X10.  What a slot's handler leaves behind depends on the file it is given
    and on nothing an earlier choice for the same slot wrote: choosing
    again, or clearing the slot, overwrites the earlier choice whole. *)
Theorem choose_overwrites (file file' : option File.t) (s : State) :
  handleOddChange lib file' (handleOddChange lib file s) = handleOddChange lib file' s
  /\ handleEvenChange lib file' (handleEvenChange lib file s) = handleEvenChange lib file' s.
Proof.
  unfold handleOddChange, handleEvenChange, complete.
  unfold handleOddChange_settle, handleEvenChange_settle, inspectPdf.
  split.
  - destruct file' as [f'|]; destruct file as [f|]; cbn [handleOddChange_sync settle];
      unfold handleOddChange_settle, inspectPdf;
      repeat match goal with
             | |- context [readArrayBuffer lib ?f ≫= _] =>
                 destruct (readArrayBuffer lib f); cbn [mbind option_bind]
             | |- context [load lib ?x ≫= _] =>
                 destruct (load lib x); cbn [mbind option_bind]
             end; reflexivity.
  - destruct file' as [f'|]; destruct file as [f|]; cbn [handleEvenChange_sync settle];
      unfold handleEvenChange_settle, inspectPdf;
      repeat match goal with
             | |- context [readArrayBuffer lib ?f ≫= _] =>
                 destruct (readArrayBuffer lib f); cbn [mbind option_bind]
             | |- context [load lib ?x ≫= _] =>
                 destruct (load lib x); cbn [mbind option_bind]
             end; reflexivity.
Qed.

(** X11.  The two slots do not interfere: choosing for A and then for B, or for
    B and then for A, gives the same state but for the status, which is
    that of the handler that ran last; whole states agree when no load
    fails.  In particular the failure message of one slot is erased by a
    later choice for the other slot that loads. *)
Theorem choose_commutes (x y : option File.t) (s : State) :
  (forall st,
     setStatus st (handleOddChange lib x (handleEvenChange lib y s))
     = setStatus st (handleEvenChange lib y (handleOddChange lib x s)))
  /\ status (handleOddChange lib x (handleEvenChange lib y s))
     = status (handleOddChange lib x s)
  /\ status (handleEvenChange lib y (handleOddChange lib x s))
     = status (handleEvenChange lib y s)
  /\ ((forall f, x = Some f -> ~ loadFails lib f) ->
      (forall f, y = Some f -> ~ loadFails lib f) ->
      handleOddChange lib x (handleEvenChange lib y s)
      = handleEvenChange lib y (handleOddChange lib x s)).
Proof.
  unfold handleOddChange, handleEvenChange, complete, loadFails.
  destruct x as [fx|]; destruct y as [fy|];
    cbn [handleOddChange_sync handleEvenChange_sync settle];
    unfold handleOddChange_settle, handleEvenChange_settle, inspectPdf;
    repeat match goal with
           | |- context [readArrayBuffer lib ?f ≫= _] =>
               let E := fresh "Hread" in
               destruct (readArrayBuffer lib f) eqn:E; cbn [mbind option_bind]
           | |- context [load lib ?x ≫= _] =>
               let E := fresh "Hload" in
               destruct (load lib x) eqn:E; cbn [mbind option_bind]
           end;
    (split; [reflexivity|]); (split; [reflexivity|]); (split; [reflexivity|]);
    intros Hx Hy; try reflexivity; exfalso;
    (apply (Hx _ eq_refl) + apply (Hy _ eq_refl));
    repeat (match goal with
            | H : readArrayBuffer _ _ = _ |- _ => rewrite H
            | H : load _ _ = _ |- _ => rewrite H
            end; cbn [mbind option_bind]);
    reflexivity.
Qed.

(** X12.  Choose A, choose B, merge: when the merge succeeds and at least one
    source has a page, the three page counts on display add up; when
    neither source has a page the result shows 1 page under two sources of
    0 pages.  The result is named after A's file as slot A shows it, and
    the link is live. *)
Theorem page_counts_add_up (a b : File.t) output url info (s : State) :
  merge lib a b = Some (output, url, info) ->
  let s' := mergePdfs lib (handleEvenChange lib (Some b) (handleOddChange lib (Some a) s)) in
  let shown := PdfInfo.pages (oddInfo s') + PdfInfo.pages (evenInfo s') in
  PdfInfo.pages (resultInfo s') = (if (shown =? 0)%nat then 1 else shown)
  /\ (0 < shown -> PdfInfo.pages (resultInfo s') = shown)
  /\ (PdfInfo.name (oddInfo s') <> "" ->
      PdfInfo.name (resultInfo s') = ("al-" ++ PdfInfo.name (oddInfo s'))%string)
  /\ status s' = Status.done /\ busy s' = false /\ linkEnabled s' = true
  /\ oddFile s' = Some a /\ evenFile s' = Some b.
Proof.
  intros H s'. pose proof H as Hm. apply merge_Some in H.
  destruct H as (A & B & mergedBytes & Ha & Hb & HA & HB & Hout & _ & -> & ->).
  assert (HlA : readArrayBuffer lib a ≫= load lib = Some A).
  { unfold readArrayBuffer. by rewrite Ha. }
  assert (HlB : readArrayBuffer lib b ≫= load lib = Some B).
  { unfold readArrayBuffer. by rewrite Hb. }
  unfold s'.
  rewrite (handleOddChange_loads _ _ s HlA), (handleEvenChange_loads _ _ _ HlB).
  unfold mergePdfs, complete. cbn [mergePdfs_sync oddFile evenFile settle].
  rewrite (mergePdfs_settle_success _ _ _ _ _ _ _ Hm).
  cbn -[mergedName savedPageCount Nat.eqb].
  unfold savedPageCount. rewrite (interleavePages_length _ _ _ _ Hout).
  split; [done|]. split.
  { intros Hpos. destruct (Nat.eqb_spec (length A + length B) 0); [lia|done]. }
  split; [|done].
  intros Hne. by destruct (mergedName_cases a) as [[? _]|[_ ->]].
Qed.

(** X13.  An empty slot and a slot whose file failed to load are shown alike:
    the line under the input reads a dash for the name, 0 pages and 0 B. *)
Theorem empty_slot_line (file : option File.t) (s : State) :
  (forall f, file = Some f -> loadFails lib f) ->
  oddMeta (render (handleOddChange lib file s)) = "- ・ 0ページ ・ 0 B"
  /\ evenMeta (render (handleEvenChange lib file s)) = "- ・ 0ページ ・ 0 B".
Proof.
  intros Hfail. unfold handleOddChange, handleEvenChange, complete.
  destruct file as [f|]; cbn [handleOddChange_sync handleEvenChange_sync settle].
  - unfold handleOddChange_settle, handleEvenChange_settle.
    rewrite !(inspectPdf_fails _ _ _ _ (Hfail f eq_refl)). split; reflexivity.
  - split; reflexivity.
Qed.

End MoreHandlers.

Lemma choose_loads_witness :
  handleOddChange Fixture.lib (Some Fixture.report) initial
  = {| oddFile := Some Fixture.report; evenFile := None;
       oddInfo := PdfInfo.mk "report.pdf" 3 4; evenInfo := PdfInfo.empty;
       status := Status.selectTwo; busy := false;
       downloadUrl := ""; resultInfo := PdfInfo.empty |}.
Proof.
  apply (proj1 (choose_loads Fixture.lib Fixture.report [1; 2; 3] initial eq_refl)).
Defined.

Lemma page_counts_add_up_witness :
  PdfInfo.pages (resultInfo Fixture.merged)
  = PdfInfo.pages (oddInfo Fixture.merged) + PdfInfo.pages (evenInfo Fixture.merged).
Proof.
  destruct (page_counts_add_up Fixture.lib Fixture.report Fixture.notes
              [1001; 1017; 1002; 1018; 1003] "blob:0"
              (PdfInfo.mk "al-report.pdf" 5 6) initial eq_refl) as (_ & Hsum & _).
  apply Hsum. vm_compute. lia.
Defined.

Lemma empty_slot_line_witness :
  oddMeta (render (handleOddChange Fixture.lib (Some Fixture.letter) Fixture.merged))
  = "- ・ 0ページ ・ 0 B".
Proof.
  apply (empty_slot_line Fixture.lib (Some Fixture.letter) Fixture.merged).
  intros f Hf. injection Hf as <-. reflexivity.
Defined.

(** ** Every run of the event loop *)

Section MoreEventLoop.

Context {Page : Type} (lib : Collaborators Page).

Lemma handleOddChange_settle_artifact file s :
  downloadUrl (handleOddChange_settle lib file s) = downloadUrl s
  /\ resultInfo (handleOddChange_settle lib file s) = resultInfo s.
Proof.
  unfold handleOddChange_settle.
  destruct (inspectPdf lib file setOddInfo s) as [s'|] eqn:H; [|done].
  apply inspectPdf_Some in H as [info ->]. done.
Qed.

Lemma handleEvenChange_settle_artifact file s :
  downloadUrl (handleEvenChange_settle lib file s) = downloadUrl s
  /\ resultInfo (handleEvenChange_settle lib file s) = resultInfo s.
Proof.
  unfold handleEvenChange_settle.
  destruct (inspectPdf lib file setEvenInfo s) as [s'|] eqn:H; [|done].
  apply inspectPdf_Some in H as [info ->]. done.
Qed.

(** What one step does to the artifact slot: it empties the link, or it
    leaves link and metadata alone, or it is the settling of a merge that
    succeeded and writes both from that merge. *)
Lemma step_artifact σ e :
  let s := ui σ in
  let s' := ui (step lib σ e) in
  (downloadUrl s' = "" /\ minted lib σ e = []
   /\ (resultInfo s' = PdfInfo.empty \/ resultInfo s' = resultInfo s))
  \/ (downloadUrl s' = downloadUrl s /\ resultInfo s' = resultInfo s
      /\ minted lib σ e = [] /\ (busy s' = busy s \/ busy s' = false))
  \/ (exists n a b output url info,
        pending σ !! n = Some (Merging a b)
        /\ merge lib a b = Some (output, url, info)
        /\ downloadUrl s' = url /\ resultInfo s' = info
        /\ minted lib σ e = [url] /\ busy s' = false).
Proof.
  intros s s'. unfold s, s'. destruct e as [file|file| |n]; cbn [step].
  - left. destruct file; cbn; auto.
  - left. destruct file; cbn; auto.
  - destruct (canMerge (ui σ)) eqn:Hready.
    + destruct (mergePdfs_sync_ready _ Hready) as (a & b & _ & _ & ->).
      left. cbn. auto.
    + right. left. cbn. auto.
  - unfold minted. destruct (pending σ !! n) as [t|] eqn:Ht.
    + destruct t as [f|f|a b]; cbn [ui settle].
      * right. left.
        destruct (handleOddChange_settle_artifact f (ui σ)) as [-> ->].
        rewrite handleOddChange_settle_busy. auto.
      * right. left.
        destruct (handleEvenChange_settle_artifact f (ui σ)) as [-> ->].
        rewrite handleEvenChange_settle_busy. auto.
      * destruct (merge lib a b) as [[[output url] info]|] eqn:Hm.
        -- right. right. exists n, a, b, output, url, info.
           rewrite (mergePdfs_settle_success _ _ _ _ _ _ _ Hm). cbn. auto 10.
        -- right. left. rewrite (mergePdfs_settle_failure _ _ _ _ Hm). cbn. auto.
    + right. left. auto.
Qed.

Lemma run_busy_link (es : list Event) :
  busy (ui (run lib es)) = true -> downloadUrl (ui (run lib es)) = "".
Proof.
  induction es as [|e es IH] using rev_ind; [done|].
  rewrite run_snoc. intros Hb.
  destruct (step_artifact (run lib es) e)
    as [(Hu & _)|[(Hu & _ & _ & [Hbusy|Hbusy])|(n & a & b & o & u & i & _ & _ & _ & _ & _ & Hbusy)]].
  - done.
  - rewrite Hu. apply IH. by rewrite <- Hbusy.
  - congruence.
  - congruence.
Qed.

(** X14.  While a merge is running no download is on offer: in every run, at
    every point, a raised busy flag goes with an empty [downloadUrl], so
    the link is dead and a click on it is prevented. *)
Theorem no_link_while_busy (es : list Event) :
  busy (ui (run lib es)) = true ->
  downloadUrl (ui (run lib es)) = ""
  /\ href (render (ui (run lib es))) = "#"
  /\ clickPrevented (render (ui (run lib es))) = true.
Proof.
  intros Hb. pose proof (run_busy_link es Hb) as H.
  unfold render. cbn. by rewrite H.
Qed.

Lemma blob_not_empty (a b : File.t) output url info :
  merge lib a b = Some (output, url, info) -> String.eqb url "" = false.
Proof.
  intros H. apply merge_Some in H.
  by destruct H as (A & B & mergedBytes & _ & _ & _ & _ & _ & _ & -> & _).
Qed.

(** X15.  In every run, at every point, the result metadata on display are the
    empty record or the metadata of a merge that succeeded, and a live link
    is the object URL of a merge that succeeded together with the metadata
    of that same merge: the download attribute is never the name of
    another result than the one behind the link. *)
Theorem artifact_consistent (es : list Event) :
  let s := ui (run lib es) in
  (resultInfo s = PdfInfo.empty \/ exists a b, metadataOf lib a b s)
  /\ (downloadUrl s = ""
      \/ exists a b, artifactOf lib a b s
                     /\ href (render s) = downloadUrl s
                     /\ download (render s) = mergedName a).
Proof.
  induction es as [|e es IH] using rev_ind; [by split; left|].
  rewrite run_snoc. cbv zeta in *. destruct IH as [IHm IHa].
  destruct (step_artifact (run lib es) e)
    as [(Hu & _ & [Hr|Hr])|[(Hu & Hr & _)|(n & a & b & o & u & i & _ & Hm & Hu & Hr & _)]].
  - split; [by left|by left].
  - split; [|by left]. destruct IHm as [He|(a & b & o & u & i & Hm & Hi)].
    + left. by rewrite Hr.
    + right. exists a, b, o, u, i. by rewrite Hr.
  - split.
    + destruct IHm as [He|(a & b & o & u & i & Hm & Hi)].
      * left. by rewrite Hr.
      * right. exists a, b, o, u, i. by rewrite Hr.
    + destruct IHa as [He|(a & b & (o & u & i & Hm & Hu' & Hi) & Hh & Hd)].
      * left. by rewrite Hu.
      * right. exists a, b. split; [exists o, u, i; by rewrite Hu, Hr|].
        unfold render in *. cbn [href download] in *.
        rewrite Hu, Hr. split; [exact Hh|exact Hd].
  - split.
    + right. exists a, b, o, u, i. done.
    + right. exists a, b. split; [by exists o, u, i|].
      unfold render. cbn. rewrite Hu, Hr, (blob_not_empty _ _ _ _ _ Hm).
      split; [done|]. apply merge_Some in Hm.
      by destruct Hm as (A & B & mergedBytes & _ & _ & _ & _ & _ & _ & _ & ->).
Qed.

Lemma runB_snoc es e : runB lib (es ++ [e]) = stepB lib (runB lib es) e.
Proof. unfold runB. by rewrite fold_left_app. Qed.

Lemma component_runB es : component (runB lib es) = run lib es.
Proof.
  induction es as [|e es IH] using rev_ind; [done|].
  rewrite runB_snoc, run_snoc. cbn. by rewrite IH.
Qed.

(** X16.  The object URLs the browser holds are, in every run and at every
    point, exactly the current link when there is one and none otherwise:
    the effect revokes each URL when the link it backed is cleared, never
    while it is the link, and no URL is left behind. *)
Theorem object_urls_released (es : list Event) :
  objects (runB lib es)
  = if String.eqb (downloadUrl (ui (run lib es))) "" then []
    else [downloadUrl (ui (run lib es))].
Proof.
  induction es as [|e es IH] using rev_ind; [done|].
  rewrite runB_snoc, run_snoc. unfold stepB. cbn [objects]. rewrite component_runB, IH.
  unfold commit, cleanup.
  destruct (step_artifact (run lib es) e)
    as [(Hu & Hmint & _)|[(Hu & _ & Hmint & _)|(n & a & b & o & u & i & Hn & Hm & Hu & _ & Hmint & _)]];
    rewrite Hmint, Hu.
  - rewrite app_nil_r.
    destruct (String.eqb (downloadUrl (ui (run lib es))) "") eqn:He; [done|].
    cbn. by rewrite String.eqb_refl.
  - by rewrite app_nil_r, String.eqb_refl.
  - assert (Hb : busy (ui (run lib es)) = true).
    { pose proof (run_consistent lib es) as Hc. unfold consistent in Hc.
      apply inFlight_lookup in Hn. destruct (busy (ui (run lib es))); [done|lia]. }
    rewrite (run_busy_link es Hb).
    rewrite (blob_not_empty _ _ _ _ _ Hm). cbn.
    destruct u as [|c u]; [|done].
    pose proof (blob_not_empty _ _ _ _ _ Hm) as Hf. discriminate Hf.
Qed.

Lemma handleOddChange_settle_loads file pdf s :
  readArrayBuffer lib file ≫= load lib = Some pdf ->
  handleOddChange_settle lib file s
  = setStatus Status.selectTwo
      (setOddInfo (PdfInfo.mk (File.name file) (length pdf) (File.size file)) s).
Proof.
  intros H. unfold handleOddChange_settle. by rewrite (inspectPdf_loads _ _ _ _ _ H).
Qed.

Lemma handleEvenChange_settle_loads file pdf s :
  readArrayBuffer lib file ≫= load lib = Some pdf ->
  handleEvenChange_settle lib file s
  = setStatus Status.selectTwo
      (setEvenInfo (PdfInfo.mk (File.name file) (length pdf) (File.size file)) s).
Proof.
  intros H. unfold handleEvenChange_settle. by rewrite (inspectPdf_loads _ _ _ _ _ H).
Qed.

Lemma handleOddChange_settle_shape file s :
  exists info st, handleOddChange_settle lib file s = setStatus st (setOddInfo info s).
Proof.
  unfold handleOddChange_settle.
  destruct (inspectPdf lib file setOddInfo s) as [s'|] eqn:H.
  - apply inspectPdf_Some in H as [info ->]. eauto.
  - by exists PdfInfo.empty, Status.failedA.
Qed.

Lemma handleEvenChange_settle_shape file s :
  exists info st, handleEvenChange_settle lib file s = setStatus st (setEvenInfo info s).
Proof.
  unfold handleEvenChange_settle.
  destruct (inspectPdf lib file setEvenInfo s) as [s'|] eqn:H.
  - apply inspectPdf_Some in H as [info ->]. eauto.
  - by exists PdfInfo.empty, Status.failedB.
Qed.

(** X17.  Two choices for one slot in a row, the second read faster than the
    first: the slot's file is the second file, but its metadata are those
    of the first, whose inspection settled last, whether or not the second
    file loaded. *)
Theorem late_inspection_wins (first second : File.t) (pdf : list Page) (s : State) :
  readArrayBuffer lib first ≫= load lib = Some pdf ->
  (let σ := fold_left (step lib)
              [ChangeOdd (Some first); ChangeOdd (Some second); Settle 1; Settle 0]
              {| ui := s; pending := [] |} in
   pending σ = []
   /\ oddFile (ui σ) = Some second
   /\ oddInfo (ui σ) = PdfInfo.mk (File.name first) (length pdf) (File.size first)
   /\ status (ui σ) = Status.selectTwo)
  /\
  (let σ := fold_left (step lib)
              [ChangeEven (Some first); ChangeEven (Some second); Settle 1; Settle 0]
              {| ui := s; pending := [] |} in
   pending σ = []
   /\ evenFile (ui σ) = Some second
   /\ evenInfo (ui σ) = PdfInfo.mk (File.name first) (length pdf) (File.size first)
   /\ status (ui σ) = Status.selectTwo).
Proof.
  intros H. split; cbn -[handleOddChange_settle handleEvenChange_settle].
  - rewrite (handleOddChange_settle_loads _ _ _ H).
    destruct (handleOddChange_settle_shape second
                (setResultInfo PdfInfo.empty (setDownloadUrl ""
                   (setOddFile (Some second)
                      (setResultInfo PdfInfo.empty (setDownloadUrl ""
                         (setOddFile (Some first) s)))))))
      as (info & st & ->). done.
  - rewrite (handleEvenChange_settle_loads _ _ _ H).
    destruct (handleEvenChange_settle_shape second
                (setResultInfo PdfInfo.empty (setDownloadUrl ""
                   (setEvenFile (Some second)
                      (setResultInfo PdfInfo.empty (setDownloadUrl ""
                         (setEvenFile (Some first) s)))))))
      as (info & st & ->). done.
Qed.

End MoreEventLoop.

Lemma no_link_while_busy_witness :
  downloadUrl (ui (run Fixture.lib Fixture.again)) = ""
  /\ href (render (ui (run Fixture.lib Fixture.again))) = "#"
  /\ clickPrevented (render (ui (run Fixture.lib Fixture.again))) = true.
Proof. apply (no_link_while_busy Fixture.lib Fixture.again). reflexivity. Defined.

Lemma late_inspection_wins_witness :
  oddFile (ui (fold_left (step Fixture.lib)
                 [ChangeOdd (Some Fixture.report); ChangeOdd (Some Fixture.notes);
                  Settle 1; Settle 0] boot)) = Some Fixture.notes
  /\ oddInfo (ui (fold_left (step Fixture.lib)
                    [ChangeOdd (Some Fixture.report); ChangeOdd (Some Fixture.notes);
                     Settle 1; Settle 0] boot)) = PdfInfo.mk "report.pdf" 3 4.
Proof.
  destruct (late_inspection_wins Fixture.lib Fixture.report Fixture.notes [1; 2; 3]
              initial eq_refl) as [(_ & Hfile & Hinfo & _) _].
  split; [exact Hfile|exact Hinfo].
Defined.

(** ** Sessions: one operation at a time *)

Section Sessions.

Context {Page : Type} (lib : Collaborators Page).

Lemma events_act (s : State) (a : Action) :
  fold_left (step lib) (events s a) {| ui := s; pending := [] |}
  = {| ui := act lib s a; pending := [] |}.
Proof.
  destruct a as [[f|]|[f|]|]; cbn -[handleOddChange_settle handleEvenChange_settle];
    try reflexivity.
  destruct (canMerge s) eqn:Hready; cbn [fold_left step ui]; rewrite Hready; [|done].
  unfold mergePdfs, complete.
  destruct (mergePdfs_sync_ready _ Hready) as (a & b & _ & _ & ->).
  reflexivity.
Qed.

Lemma script_act (s : State) (actions : list Action) :
  fold_left (step lib) (script lib s actions) {| ui := s; pending := [] |}
  = {| ui := fold_left (act lib) actions s; pending := [] |}.
Proof.
  revert s. induction actions as [|a actions IH]; intros s; [done|].
  cbn [script fold_left]. by rewrite fold_left_app, events_act, IH.
Qed.

(** A session is a run of the event loop: the events of its actions, each
    continuation settling before the next event, lead to the state of the
    session with nothing left parked. *)
Lemma session_is_run (actions : list Action) :
  run lib (script lib initial actions)
  = {| ui := session lib actions; pending := [] |}.
Proof. apply script_act. Qed.

Lemma handleOddChange_clears file s :
  downloadUrl (handleOddChange lib file s) = ""
  /\ resultInfo (handleOddChange lib file s) = PdfInfo.empty
  /\ busy (handleOddChange lib file s) = busy s.
Proof.
  unfold handleOddChange, complete. destruct file as [f|]; [|done].
  cbn [handleOddChange_sync settle].
  by destruct (handleOddChange_settle_shape lib f
                 (setResultInfo PdfInfo.empty (setDownloadUrl "" (setOddFile (Some f) s))))
    as (info & st & ->).
Qed.

Lemma handleEvenChange_clears file s :
  downloadUrl (handleEvenChange lib file s) = ""
  /\ resultInfo (handleEvenChange lib file s) = PdfInfo.empty
  /\ busy (handleEvenChange lib file s) = busy s.
Proof.
  unfold handleEvenChange, complete. destruct file as [f|]; [|done].
  cbn [handleEvenChange_sync settle].
  by destruct (handleEvenChange_settle_shape lib f
                 (setResultInfo PdfInfo.empty (setDownloadUrl "" (setEvenFile (Some f) s))))
    as (info & st & ->).
Qed.

Lemma session_snoc actions a :
  session lib (actions ++ [a]) = act lib (session lib actions) a.
Proof. unfold session. by rewrite fold_left_app. Qed.

(** X19.  In a session the artifact slot is never stale.  At rest the busy flag
    is down, and either the link and the result metadata are both empty,
    or both are those of the merge of the two files that are selected now.
    In particular a merge that fails in a session leaves no metadata of an
    earlier result behind. *)
Theorem session_artifact_current (actions : list Action) :
  let s := session lib actions in
  busy s = false
  /\ ((downloadUrl s = "" /\ resultInfo s = PdfInfo.empty)
      \/ exists a b, oddFile s = Some a /\ evenFile s = Some b /\ artifactOf lib a b s).
Proof.
  induction actions as [|x actions IH] using rev_ind; [by split; [|left]|].
  rewrite session_snoc. cbv zeta in *. destruct IH as [IHb IHa].
  set (s := session lib actions) in *.
  destruct x as [file|file|]; cbn [act].
  - destruct (handleOddChange_clears file s) as (-> & -> & ->). auto.
  - destruct (handleEvenChange_clears file s) as (-> & -> & ->). auto.
  - destruct (canMerge s) eqn:Hready; [|auto].
    destruct (mergePdfs_sync_ready _ Hready) as (a & b & Ha & Hb & Hsync).
    unfold mergePdfs, complete. rewrite Hsync. cbn [settle].
    destruct (merge lib a b) as [[[output url] info]|] eqn:Hm.
    + rewrite (mergePdfs_settle_success _ _ _ _ _ _ _ Hm).
      split; [done|]. right. exists a, b. split; [done|]. split; [done|].
      by exists output, url, info.
    + rewrite (mergePdfs_settle_failure _ _ _ _ Hm).
      split; [done|]. left. split; [done|]. cbn.
      destruct IHa as [[_ He]|(a' & b' & Ha' & Hb' & o & u & i & Hm' & _)]; [done|].
      congruence.
Qed.

End Sessions.

(** ** The button *)

Section Button.

Context {Page : Type} (lib : Collaborators Page).

(** X20.  In every run the button reads 結合中... exactly while a merge is in
    flight and 結合する otherwise; it is enabled exactly when both slots
    hold a file and no merge is in flight. *)
Theorem button_in_runs (es : list Event) :
  let σ := run lib es in
  let v := render (ui σ) in
  (buttonLabel v = Status.merging <-> inFlight σ = 1)
  /\ (buttonLabel v = Label.merge <-> inFlight σ = 0)
  /\ (buttonDisabled v = false
      <-> is_Some (oddFile (ui σ)) /\ is_Some (evenFile (ui σ)) /\ inFlight σ = 0).
Proof.
  intros σ v. pose proof (run_consistent lib es) as Hc. fold σ in Hc.
  unfold consistent in Hc. unfold v, render, canMerge. cbn [buttonLabel buttonDisabled].
  destruct (busy (ui σ)); rewrite Hc.
  - split; [done|]. split; [done|]. rewrite andb_false_r. cbn.
    split; [done|]. intros (_ & _ & ?). done.
  - split; [done|]. split; [done|]. rewrite andb_true_r, negb_false_iff, andb_true_iff.
    rewrite !bool_decide_eq_true.
    split; [intros [? ?]; auto|intros (? & ? & _); auto].
Qed.

End Button.

(** ** The status line, and merges across a change of source *)

Section Across.

Context {Page : Type} (lib : Collaborators Page).

Lemma handleOddChange_settle_status file s :
  status (handleOddChange_settle lib file s) = Status.selectTwo
  \/ status (handleOddChange_settle lib file s) = Status.failedA.
Proof.
  unfold handleOddChange_settle.
  destruct (inspectPdf lib file setOddInfo s) as [s'|]; auto.
Qed.

Lemma handleEvenChange_settle_status file s :
  status (handleEvenChange_settle lib file s) = Status.selectTwo
  \/ status (handleEvenChange_settle lib file s) = Status.failedB.
Proof.
  unfold handleEvenChange_settle.
  destruct (inspectPdf lib file setEvenInfo s) as [s'|]; auto.
Qed.

Lemma mergePdfs_settle_status a b s :
  status (mergePdfs_settle lib a b s) = Status.done
  \/ status (mergePdfs_settle lib a b s) = Status.mergeFailed.
Proof.
  unfold mergePdfs_settle. destruct (merge lib a b) as [[[? ?] ?]|]; auto.
Qed.

(** X21.  In every run the status line says 結合中... only while a merge is in
    flight.  (Not the other way round: a change of source during the merge
    replaces the text while the merge goes on.) *)
Theorem merging_status_means_busy (es : list Event) :
  status (ui (run lib es)) = Status.merging ->
  busy (ui (run lib es)) = true /\ inFlight (run lib es) = 1.
Proof.
  assert (H : status (ui (run lib es)) = Status.merging -> busy (ui (run lib es)) = true).
  { induction es as [|e es IH] using rev_ind; [discriminate|].
    rewrite run_snoc. set (σ := run lib es) in *.
    destruct e as [[f|]|[f|]| |n]; cbn [step].
    - exact IH.
    - discriminate.
    - exact IH.
    - discriminate.
    - destruct (canMerge (ui σ)) eqn:Hready; [|exact IH].
      by destruct (mergePdfs_sync_ready _ Hready) as (a & b & _ & _ & ->).
    - destruct (pending σ !! n) as [t|]; [|exact IH].
      destruct t as [f|f|a b]; cbn [ui settle]; intros Hs.
      + destruct (handleOddChange_settle_status f (ui σ)) as [E|E];
          rewrite E in Hs; discriminate Hs.
      + destruct (handleEvenChange_settle_status f (ui σ)) as [E|E];
          rewrite E in Hs; discriminate Hs.
      + destruct (mergePdfs_settle_status a b (ui σ)) as [E|E];
          rewrite E in Hs; discriminate Hs. }
  intros Hs. specialize (H Hs). split; [done|].
  pose proof (run_consistent lib es) as Hc. unfold consistent in Hc.
  by rewrite H in Hc.
Qed.

Lemma mergePdfs_ready (s : State) a b :
  oddFile s = Some a -> evenFile s = Some b ->
  mergePdfs lib s
  = mergePdfs_settle lib a b (setDownloadUrl "" (setStatus Status.merging (setBusy true s))).
Proof.
  intros Ha Hb. unfold mergePdfs, complete, mergePdfs_sync. by rewrite Ha, Hb.
Qed.

Lemma mergePdfs_settle_files a b s :
  oddFile (mergePdfs_settle lib a b s) = oddFile s
  /\ evenFile (mergePdfs_settle lib a b s) = evenFile s.
Proof. unfold mergePdfs_settle. by destruct (merge lib a b) as [[[? ?] ?]|]. Qed.

(** X22.  Pressing the button again without touching the sources changes
    nothing but, possibly, the URL behind the link: the second merge ends
    with every other piece of state as the first one left it, and with the
    link live exactly if it was live after the first. *)
Theorem merge_again_same (s : State) (url : string) :
  setDownloadUrl url (act lib (act lib s PressMerge) PressMerge)
  = setDownloadUrl url (act lib s PressMerge)
  /\ linkEnabled (act lib (act lib s PressMerge) PressMerge)
     = linkEnabled (act lib s PressMerge).
Proof.
  assert (H : act lib (act lib s PressMerge) PressMerge = act lib s PressMerge);
    [|by rewrite H].
  cbn [act]. destruct (canMerge s) eqn:Hready; [|by rewrite Hready].
  destruct (mergePdfs_sync_ready _ Hready) as (a & b & Ha & Hb & _).
  rewrite (mergePdfs_ready s a b Ha Hb).
  set (s1 := mergePdfs_settle lib a b _).
  destruct (mergePdfs_settle_files a b
              (setDownloadUrl "" (setStatus Status.merging (setBusy true s))))
    as [Ha1 Hb1].
  fold s1 in Ha1, Hb1. cbn in Ha1, Hb1. rewrite Ha in Ha1. rewrite Hb in Hb1.
  assert (Hready1 : canMerge s1 = true).
  { unfold s1. rewrite mergePdfs_settle_canMerge. cbn. by rewrite Ha, Hb. }
  rewrite Hready1, (mergePdfs_ready s1 a b Ha1 Hb1). unfold s1.
  destruct (merge lib a b) as [[[output u] info]|] eqn:Hm.
  - by rewrite !(mergePdfs_settle_success _ _ _ _ _ _ _ Hm).
  - by rewrite !(mergePdfs_settle_failure _ _ _ _ Hm).
Qed.

(** X23.  A merge works on the files that were selected when the button was
    pressed.  When source A is replaced while the merge is in flight and
    the merge then succeeds, the link and the metadata that appear are
    those of the merge of the old files, under a slot that holds the new
    one. *)
Theorem merge_in_flight_keeps_files (s : State) (a b c : File.t) output url info :
  canMerge s = true -> oddFile s = Some a -> evenFile s = Some b ->
  merge lib a b = Some (output, url, info) ->
  let σ := fold_left (step lib)
             [ClickMerge; ChangeOdd (Some c); Settle 1; Settle 0]
             {| ui := s; pending := [] |} in
  pending σ = []
  /\ oddFile (ui σ) = Some c /\ evenFile (ui σ) = Some b
  /\ artifactOf lib a b (ui σ)
  /\ linkEnabled (ui σ) = true
  /\ download (render (ui σ)) = mergedName a
  /\ status (ui σ) = Status.done /\ busy (ui σ) = false.
Proof.
  intros Hready Ha Hb Hm σ. unfold σ.
  pose proof Hm as Hm'. apply merge_Some in Hm'.
  destruct Hm' as (A & B & mergedBytes & _ & _ & _ & _ & _ & _ & -> & ->).
  cbn [fold_left step ui]. rewrite Hready.
  destruct (mergePdfs_sync_ready _ Hready) as (a' & b' & Ha' & Hb' & ->).
  assert (a' = a) as -> by congruence. assert (b' = b) as -> by congruence.
  cbn -[handleOddChange_settle mergePdfs_settle].
  rewrite (mergePdfs_settle_success _ _ _ _ _ _ _ Hm).
  destruct (handleOddChange_settle_shape lib c
              (setResultInfo PdfInfo.empty (setDownloadUrl ""
                 (setOddFile (Some c)
                    (setDownloadUrl "" (setStatus Status.merging (setBusy true s)))))))
    as (i & st & ->).
  cbn -[mergedName].
  split; [done|]. split; [done|]. split; [exact Hb|].
  split; [|done]. eexists _, _, _. split; [exact Hm|]. done.
Qed.

End Across.

Lemma merging_status_means_busy_witness :
  busy (ui (run Fixture.lib Fixture.again)) = true
  /\ inFlight (run Fixture.lib Fixture.again) = 1.
Proof. apply (merging_status_means_busy Fixture.lib Fixture.again). reflexivity. Defined.

Lemma merge_in_flight_keeps_files_witness :
  oddFile (ui (fold_left (step Fixture.lib)
                 [ClickMerge; ChangeOdd (Some Fixture.broken); Settle 1; Settle 0]
                 {| ui := Fixture.loaded; pending := [] |})) = Some Fixture.broken
  /\ download (render (ui (fold_left (step Fixture.lib)
                 [ClickMerge; ChangeOdd (Some Fixture.broken); Settle 1; Settle 0]
                 {| ui := Fixture.loaded; pending := [] |}))) = "al-report.pdf".
Proof.
  destruct (merge_in_flight_keeps_files Fixture.lib Fixture.loaded
              Fixture.report Fixture.notes Fixture.broken
              [1001; 1017; 1002; 1018; 1003] "blob:0"
              (PdfInfo.mk "al-report.pdf" 5 6) eq_refl eq_refl eq_refl eq_refl)
    as (_ & Hfile & _ & _ & _ & Hname & _).
  split; [exact Hfile|exact Hname].
Defined.
